(** * Contacts / users REST backend: a shallow embedding and its properties

    The development follows the layout of the repository:

    - [src/database/models.py]    : the two tables, [User.t] and [Contact.t];
    - [src/schemas.py]            : request bodies;
    - [src/repository/users.py], [src/repository/contacts.py]
                                  : the persistence access layer;
    - [src/services/auth.py]      : password hashing and signed tokens;
    - [src/routes/auth.py]        : the authentication routes.

    Python exceptions are values of type [exn], a function that may raise
    returns a [result].  The database session is threaded explicitly.  The
    wall clock ([date.today()], [datetime.utcnow()]) is an explicit argument. *)

From Stdlib Require Import ZArith Lia List String Ascii Bool.
From stdpp Require Import base option list strings gmap.

Local Open Scope string_scope.
Local Open Scope Z_scope.

(** ** Exceptions and results *)

Inductive exn :=
| HTTPException (status_code : Z) (detail : string) (headers : list (string * string))
| AttributeError (attr : string)
| KeyError (key : string)
| IntegrityError (constraint : string)
| DataError (column : string)
| OverflowError
| PasswordValueError
| UnknownHashError.

Inductive result (A : Type) :=
| Return (a : A)
| Raise (e : exn).
Arguments Return {A} a.
Arguments Raise {A} e.

(** Sequencing: the first exception raised ends the computation. *)
#[global] Instance result_ret : MRet result := fun A a => Return a.
#[global] Instance result_bind : MBind result := fun A B k r =>
  match r with
  | Return a => k a
  | Raise e => Raise e
  end.

Definition HTTP_400_BAD_REQUEST : Z := 400.
Definition HTTP_401_UNAUTHORIZED : Z := 401.
Definition HTTP_409_CONFLICT : Z := 409.
Definition HTTP_422_UNPROCESSABLE_ENTITY : Z := 422.

(** The status line of a failed request: the status of an [HTTPException], and
    500 for any other exception that escapes the handler. *)
Definition status_of (e : exn) : Z :=
  match e with
  | HTTPException s _ _ => s
  | _ => 500
  end.

(** ** Calendar dates ([datetime.date])

    Proleptic Gregorian dates with years 1..9999; [date + timedelta(days=n)]
    is [n] successor steps and raises [OverflowError] past year 9999. *)

Record date := mkdate { year : Z; month : Z; day : Z }.

Definition is_leap (y : Z) : bool :=
  (y mod 4 =? 0) && (negb (y mod 100 =? 0) || (y mod 400 =? 0)).

Definition days_in_month (y m : Z) : Z :=
  if m =? 2 then (if is_leap y then 29 else 28)
  else if (m =? 4) || (m =? 6) || (m =? 9) || (m =? 11) then 30
  else 31.

(** A date of the calendar, whatever its year. *)
Definition in_calendar (d : date) : Prop :=
  1 <= month d <= 12 /\ 1 <= day d <= days_in_month (year d) (month d).

Definition next_day (d : date) : date :=
  if day d <? days_in_month (year d) (month d)
  then mkdate (year d) (month d) (day d + 1)
  else if month d <? 12
       then mkdate (year d) (month d + 1) 1
       else mkdate (year d + 1) 1 1.

Fixpoint add_days (d : date) (n : nat) : date :=
  match n with
  | O => d
  | S k => add_days (next_day d) k
  end.

(** [d + timedelta(days=n)] *)
Definition date_plus_days (d : date) (n : nat) : result date :=
  let r := add_days d n in
  if 9999 <? year r then Raise OverflowError else Return r.

(** ** Signed tokens

    A token is a Python [str].  The compact serialisation and the signature
    are kept symbolic: a well-formed token records the algorithm of its
    header, the key it was signed with and its claims; any other string is
    [Opaque]. *)

Inductive claim_value :=
| CStr (s : string)
| CInt (n : Z).

#[global] Instance claim_value_eq_dec : EqDecision claim_value.
Proof. solve_decision. Defined.

Inductive token :=
| Opaque (s : string)
| JWS (alg : string) (key : string) (claims : gmap string claim_value).

#[global] Instance token_eq_dec : EqDecision token.
Proof. solve_decision. Defined.

(** ** [src/database/models.py] *)

Module Contact.
(** Table [contacts]; [user_id] is a nullable foreign key.  The timestamps
    [created_at] and [updated_at] are set by the server clock and carry no
    logic; they are left out, here and in [User.t]. *)
Record t := mk {
  id : Z;
  phone_number : string;
  user_id : option Z
}.

Definition set_phone_number (v : string) (c : t) : t :=
  mk (id c) v (user_id c).
Definition set_user_id (v : option Z) (c : t) : t :=
  mk (id c) (phone_number c) v.
End Contact.

#[global] Instance Contact_eq_dec : EqDecision Contact.t.
Proof. solve_decision. Defined.

(** Values that the repository stores in plain instance attributes. *)
Inductive pyval :=
| PNone
| PToken (tok : token)
| PContacts (l : list Contact.t).

#[global] Instance pyval_eq_dec : EqDecision pyval.
Proof. solve_decision. Defined.

Module User.
(** Table [users_info]. *)
Record t := mk {
  id : Z;
  name : string;
  last_name : string;
  day_of_born : date;
  email : string;
  password : string;
  description : option string;
  avatar : option string;
  confirmed : bool
}.

Definition set_name (v : string) (u : t) : t :=
  mk (id u) v (last_name u) (day_of_born u) (email u) (password u)
     (description u) (avatar u) (confirmed u).
Definition set_last_name (v : string) (u : t) : t :=
  mk (id u) (name u) v (day_of_born u) (email u) (password u)
     (description u) (avatar u) (confirmed u).
Definition set_day_of_born (v : date) (u : t) : t :=
  mk (id u) (name u) (last_name u) v (email u) (password u)
     (description u) (avatar u) (confirmed u).
Definition set_email (v : string) (u : t) : t :=
  mk (id u) (name u) (last_name u) (day_of_born u) v (password u)
     (description u) (avatar u) (confirmed u).
Definition set_description (v : option string) (u : t) : t :=
  mk (id u) (name u) (last_name u) (day_of_born u) (email u) (password u)
     v (avatar u) (confirmed u).
Definition set_avatar (v : option string) (u : t) : t :=
  mk (id u) (name u) (last_name u) (day_of_born u) (email u) (password u)
     (description u) v (confirmed u).
Definition set_confirmed (v : bool) (u : t) : t :=
  mk (id u) (name u) (last_name u) (day_of_born u) (email u) (password u)
     (description u) (avatar u) v.

(** The attributes the mapper instruments on an instance: the columns of
    the class and the relationship that [Contact.user] adds through
    [backref="contacts"]. *)
Definition mapped : list string :=
  ["id"; "name"; "last_name"; "day_of_born"; "email"; "password";
   "description"; "avatar"; "created_at"; "updated_at"; "confirmed";
   "contacts"].

(** An instance in a session: the row it was loaded from (or will be
    flushed to) and, besides, the plain Python attributes set on the
    object, which live in the instance only. *)
Record obj := mkobj {
  row : t;
  dict : gmap string pyval
}.

(** An instance as a query builds it. *)
Definition load (r : t) : obj := mkobj r ∅.

(** Assignment to an instrumented column. *)
Definition set_column (f : t -> t) (o : obj) : obj := mkobj (f (row o)) (dict o).

(** [o.attr = v] and [o.attr] for a name outside [mapped]: an ordinary
    attribute of the Python object, which no flush writes and no query
    loads. *)
Definition setattr (o : obj) (attr : string) (v : pyval) : obj :=
  mkobj (row o) (<[attr := v]> (dict o)).
Definition getattr (o : obj) (attr : string) : result pyval :=
  match dict o !! attr with
  | Some v => Return v
  | None => Raise (AttributeError attr)
  end.
End User.

(** ** [src/schemas.py] *)

Record ContactModel := { cm_phone_number : string }.

Record UserModel := {
  um_name : string;
  um_last_name : string;
  um_day_of_born : date;
  um_email : string;
  um_description : string;
  um_password : string;
  um_contacts : list Z
}.

(** [body.password = ...] in [signup] *)
Definition um_set_password (v : string) (b : UserModel) : UserModel :=
  Build_UserModel (um_name b) (um_last_name b) (um_day_of_born b) (um_email b)
    (um_description b) v (um_contacts b).

(** ** The database behind a [Session]

    Each table is the list of its rows; the two sequences hand out the
    primary keys. *)

Record DB := mkDB {
  users_info : list User.t;
  contacts : list Contact.t;
  users_info_id_seq : Z;
  contacts_id_seq : Z
}.

Definition set_users_info (l : list User.t) (db : DB) : DB :=
  mkDB l (contacts db) (users_info_id_seq db) (contacts_id_seq db).
Definition set_contacts (l : list Contact.t) (db : DB) : DB :=
  mkDB (users_info db) l (users_info_id_seq db) (contacts_id_seq db).

(** What the schema guarantees of every reachable database: primary keys are
    unique and were handed out by the sequence, [users_info.email] is
    unique. *)
Record wf_db (db : DB) : Prop := {
  wf_user_ids : NoDup (map User.id (users_info db));
  wf_user_seq : Forall (fun u => User.id u < users_info_id_seq db) (users_info db);
  wf_emails : NoDup (map User.email (users_info db));
  wf_contact_ids : NoDup (map Contact.id (contacts db));
  wf_contact_seq : Forall (fun c => Contact.id c < contacts_id_seq db) (contacts db)
}.

(** [db.query(T).filter(p).first()] and [.all()] *)
Definition query_first {T} (p : T -> bool) (table : list T) : option T :=
  List.find p table.
Definition query_all {T} (p : T -> bool) (table : list T) : list T :=
  List.filter p table.

(** [Contact.user_id == uid] in SQL: never true of a null. *)
Definition user_id_is (uid : Z) (c : Contact.t) : bool :=
  match Contact.user_id c with
  | Some k => k =? uid
  | None => false
  end.

(** [Contact.id.in_(ids)] *)
Definition id_in (ids : list Z) (c : Contact.t) : bool :=
  existsb (Z.eqb (Contact.id c)) ids.

(** ** Flushing a unit of work *)

(** The row with the primary key of [r] becomes [r]. *)
Definition replace_user (r x : User.t) : User.t :=
  if User.id x =? User.id r then r else x.
Definition replace_contact (c x : Contact.t) : Contact.t :=
  if Contact.id x =? Contact.id c then c else x.

(** [UPDATE users_info SET ... WHERE id = r.id]; the unique index on [email]
    refuses a second row with the same address. *)
Definition flush_user (r : User.t) (db : DB) : result DB :=
  if existsb (fun x => negb (User.id x =? User.id r)
                       && String.eqb (User.email x) (User.email r))
             (users_info db)
  then Raise (IntegrityError "users_info.email")
  else Return (set_users_info (map (replace_user r) (users_info db)) db).

(** [UPDATE contacts SET ... WHERE id = c.id] *)
Definition flush_contact (c : Contact.t) (db : DB) : DB :=
  set_contacts (map (replace_contact c) (contacts db)) db.

(** [INSERT INTO users_info]: the key comes from the sequence; the unique
    index on [email] refuses an address that is already there. *)
Definition insert_user (mk_row : Z -> User.t) (db : DB) : result (User.t * DB) :=
  let r := mk_row (users_info_id_seq db) in
  if existsb (fun x => String.eqb (User.email x) (User.email r)) (users_info db)
  then Raise (IntegrityError "users_info.email")
  else Return (r, mkDB (users_info db ++ [r]) (contacts db)
                       (users_info_id_seq db + 1) (contacts_id_seq db)).

(** [INSERT INTO contacts] *)
Definition insert_contact (mk_row : Z -> Contact.t) (db : DB) : Contact.t * DB :=
  let c := mk_row (contacts_id_seq db) in
  (c, mkDB (users_info db) (contacts db ++ [c])
           (users_info_id_seq db) (contacts_id_seq db + 1)).

(** [DELETE FROM users_info WHERE id = r.id].  The relationship
    [User.contacts] carries no delete cascade, so the unit of work first
    detaches the user's contacts by nulling their foreign key. *)
Definition delete_user (r : User.t) (db : DB) : DB :=
  mkDB (List.filter (fun x => negb (User.id x =? User.id r)) (users_info db))
       (map (fun c => if user_id_is (User.id r) c
                      then Contact.set_user_id None c else c) (contacts db))
       (users_info_id_seq db) (contacts_id_seq db).

(** [DELETE FROM contacts WHERE id = c.id] *)
Definition delete_contact (c : Contact.t) (db : DB) : DB :=
  set_contacts
    (List.filter (fun x => negb (Contact.id x =? Contact.id c)) (contacts db)) db.

(** ** [src/repository/contacts.py] *)

Module repository_contacts.

Definition get_contact (contact_id : Z) (db : DB) : option Contact.t :=
  query_first (fun c => Contact.id c =? contact_id) (contacts db).

Definition create_contact (body : ContactModel) (db : DB) : Contact.t * DB :=
  insert_contact (fun id => Contact.mk id (cm_phone_number body) None) db.

Definition update_contact (contact_id : Z) (body : ContactModel) (db : DB)
    (user : User.obj) : option Contact.t * DB :=
  match query_first
          (fun c => (Contact.id c =? contact_id)
                    && user_id_is (User.id (User.row user)) c)
          (contacts db) with
  | Some contact =>
      let contact := Contact.set_phone_number (cm_phone_number body) contact in
      (Some contact, flush_contact contact db)
  | None => (None, db)
  end.

Definition remove_contact (contact_id : Z) (db : DB) (user : User.obj)
    : option Contact.t * DB :=
  match query_first
          (fun c => (Contact.id c =? contact_id)
                    && user_id_is (User.id (User.row user)) c)
          (contacts db) with
  | Some contact => (Some contact, delete_contact contact db)
  | None => (None, db)
  end.

End repository_contacts.

(** ** [src/repository/users.py] *)

Module repository_users.

Definition get_user (user_id : Z) (db : DB) : option User.obj :=
  User.load <$> query_first (fun u => User.id u =? user_id) (users_info db).

Definition remove_user (user_id : Z) (db : DB) (user : User.obj)
    : option User.obj * DB :=
  match query_first
          (fun u => (User.id u =? user_id)
                    && (User.id u =? User.id (User.row user)))
          (users_info db) with
  | Some r => (Some (User.load r), delete_user r db)
  | None => (None, db)
  end.

Definition update_user (user_id : Z) (body : UserModel) (db : DB)
    (user : User.obj) : result (option User.obj * DB) :=
  match query_first
          (fun u => (User.id u =? user_id)
                    && (User.id u =? User.id (User.row user)))
          (users_info db) with
  | Some r =>
      let user := User.load r in
      let phones := query_all (id_in (um_contacts body)) (contacts db) in
      let user := User.set_column (User.set_name (um_name body)) user in
      let user := User.set_column (User.set_last_name (um_last_name body)) user in
      let user := User.set_column (User.set_day_of_born (um_day_of_born body)) user in
      let user := User.set_column (User.set_email (um_email body)) user in
      let user :=
        User.set_column (User.set_description (Some (um_description body))) user in
      let user := User.setattr user "phones" (PContacts phones) in
      db ← flush_user (User.row user) db;
      Return (Some user, db)
  | None => Return (None, db)
  end.

Definition find_user_by_email (user_email : string) (db : DB) : option User.obj :=
  User.load <$>
    query_first (fun u => String.eqb (User.email u) user_email) (users_info db).

(** [func.date_part("month", d)], [func.date_part("day", d)] *)
Definition date_part_month (d : date) : Z := month d.
Definition date_part_day (d : date) : Z := day d.

(** The filter of the birthday query.  In Python [|] binds tighter than
    [==], and both months are plain integers: the month of birth is
    compared with the bitwise or of the two months. *)
Definition birthday_filter (today_date seventh_day_date : date) (u : User.t) : bool :=
  (date_part_month (User.day_of_born u)
     =? Z.lor (month today_date) (month seventh_day_date))
  && (date_part_day (User.day_of_born u) >=? day today_date)
  && (date_part_day (User.day_of_born u) <=? day seventh_day_date).

Definition find_next_7_days_birthdays (today : date) (db : DB)
    : result (list User.obj) :=
  today_date ← date_plus_days today 1;
  seventh_day_date ← date_plus_days today_date 7;
  Return (User.load <$>
            query_all (birthday_filter today_date seventh_day_date) (users_info db)).

(** [gravatar] is what [Gravatar(body.email).get_image()] produced, the
    address of an image at Gravatar, or [None] when it raised.  The
    constructor is given no [confirmed]: the row takes
    the column default, [False]. *)
Definition create_user (body : UserModel) (gravatar : option string) (db : DB)
    : result (User.obj * DB) :=
  let avatar := gravatar in
  '(r, db) ← insert_user
               (fun id => User.mk id (um_name body) (um_last_name body)
                            (um_day_of_born body) (um_email body)
                            (um_password body) (Some (um_description body))
                            avatar false) db;
  (* contacts=contacts: every selected contact now points to the new user *)
  let db := set_contacts
              (map (fun c => if id_in (um_contacts body) c
                             then Contact.set_user_id (Some (User.id r)) c else c)
                   (contacts db)) db in
  Return (User.load r, db).

(** [refresh_token] is not an instrumented attribute of [User]: the
    assignment changes the instance, and the commit has nothing to flush. *)
Definition update_token (user : User.obj) (refresh_token : pyval) (db : DB)
    : User.obj * DB :=
  (User.setattr user "refresh_token" refresh_token, db).

(** The column [avatar] is a [String(255)]: the commit of a longer value
    is refused by the database with [DataError], and stores nothing. *)
Definition update_avatar (email : string) (url : string) (db : DB)
    : result (User.obj * DB) :=
  match find_user_by_email email db with
  | Some user =>
      let user := User.set_column (User.set_avatar (Some url)) user in
      if 255 <? Z.of_nat (String.length url) then Raise (DataError "users_info.avatar")
      else
        db ← flush_user (User.row user) db;
        Return (user, db)
  | None => Raise (AttributeError "avatar")
  end.

Definition confirmed_email (email : string) (db : DB) : result DB :=
  match find_user_by_email email db with
  | Some user =>
      let user := User.set_column (User.set_confirmed true) user in
      flush_user (User.row user) db
  | None => Raise (AttributeError "confirmed")
  end.



(** The window in the words of the specification: the month and day of
    birth are those of one of the days [tomorrow], ..., [tomorrow + 7]. *)
Definition same_month_day (a b : date) : bool :=
  (month a =? month b) && (day a =? day b).

Definition birthday_in_window (today : date) (born : date) : bool :=
  existsb (fun k => same_month_day born (add_days today (S k))) (seq 0 8).

End repository_users.

(** ** The token library ([jose.jwt])

    An external library.  Its two entry points are modelled on the symbolic
    tokens above: [decode] checks the algorithm of the header and the
    signature, then the registered claims, in the order of the library and
    as it does when it is called, as here, without audience, issuer,
    subject or access token: [iat], [nbf] and [exp] are numbers, [nbf] is
    not in the future, [exp] is not in the past, [aud] and [at_hash] are
    absent, [sub] and [jti] are strings.  All failures are subclasses of
    [JWTError]. *)

Module jwt.

Inductive JWTError :=
| JWSError
| ExpiredSignatureError
| JWTClaimsError.

Inductive decoded :=
| Payload (claims : gmap string claim_value)
| Invalid (e : JWTError).

Definition encode (claims : gmap string claim_value) (key algorithm : string) : token :=
  JWS algorithm key claims.

(** Python's [int(s)] on a string, base ten: blanks around, a sign, digits
    with single underscores between them. *)
Definition is_digit (c : ascii) : bool :=
  (48 <=? Z.of_nat (nat_of_ascii c)) && (Z.of_nat (nat_of_ascii c) <=? 57).

Definition is_space (c : ascii) : bool :=
  let n := Z.of_nat (nat_of_ascii c) in
  ((9 <=? n) && (n <=? 13)) || ((28 <=? n) && (n <=? 32)).

Fixpoint lstrip (l : list ascii) : list ascii :=
  match l with
  | c :: l' => if is_space c then lstrip l' else l
  | [] => []
  end.

Fixpoint digits (acc : Z) (after_digit : bool) (l : list ascii) : option Z :=
  match l with
  | [] => if after_digit then Some acc else None
  | c :: l' =>
      if is_digit c then digits (10 * acc + (Z.of_nat (nat_of_ascii c) - 48)) true l'
      else if Ascii.eqb c "_" && after_digit then digits acc false l'
      else None
  end.

Definition int_of_string (s : string) : option Z :=
  match lstrip (rev (lstrip (rev (list_ascii_of_string s)))) with
  | c :: l =>
      if Ascii.eqb c "-" then Z.opp <$> digits 0 false l
      else if Ascii.eqb c "+" then digits 0 false l
      else digits 0 false (c :: l)
  | [] => None
  end.

(** [int(claims[...])] *)
Definition int_of_claim (v : claim_value) : option Z :=
  match v with
  | CInt n => Some n
  | CStr s => int_of_string s
  end.

Definition validate_iat (claims : gmap string claim_value) : option JWTError :=
  match claims !! "iat" with
  | None => None
  | Some v => match int_of_claim v with
              | Some _ => None
              | None => Some JWTClaimsError
              end
  end.

Definition validate_nbf (claims : gmap string claim_value) (now : Z) : option JWTError :=
  match claims !! "nbf" with
  | None => None
  | Some v => match int_of_claim v with
              | Some nbf => if now <? nbf then Some JWTClaimsError else None
              | None => Some JWTClaimsError
              end
  end.

Definition validate_exp (claims : gmap string claim_value) (now : Z) : option JWTError :=
  match claims !! "exp" with
  | None => None
  | Some v => match int_of_claim v with
              | Some exp => if exp <? now then Some ExpiredSignatureError else None
              | None => Some JWTClaimsError
              end
  end.

(** No audience is given: whatever the claim holds, it is not the audience. *)
Definition validate_aud (claims : gmap string claim_value) : option JWTError :=
  match claims !! "aud" with
  | None => None
  | Some _ => Some JWTClaimsError
  end.

Definition validate_sub (claims : gmap string claim_value) : option JWTError :=
  match claims !! "sub" with
  | Some (CInt _) => Some JWTClaimsError
  | _ => None
  end.

Definition validate_jti (claims : gmap string claim_value) : option JWTError :=
  match claims !! "jti" with
  | Some (CInt _) => Some JWTClaimsError
  | _ => None
  end.

(** No access token is given to compare the hash with. *)
Definition validate_at_hash (claims : gmap string claim_value) : option JWTError :=
  match claims !! "at_hash" with
  | None => None
  | Some _ => Some JWTClaimsError
  end.

(** The first check that fails. *)
Fixpoint first_error (checks : list (option JWTError)) : option JWTError :=
  match checks with
  | [] => None
  | Some e :: _ => Some e
  | None :: checks => first_error checks
  end.

Definition validate_claims (claims : gmap string claim_value) (now : Z)
    : option JWTError :=
  first_error [validate_iat claims; validate_nbf claims now; validate_exp claims now;
               validate_aud claims; validate_sub claims; validate_jti claims;
               validate_at_hash claims].

Definition decode (tok : token) (key : string) (algorithms : list string)
    (now : Z) : decoded :=
  match tok with
  | Opaque _ => Invalid JWSError
  | JWS alg k claims =>
      if negb (existsb (String.eqb alg) algorithms) then Invalid JWSError
      else if negb (String.eqb k key) then Invalid JWSError
      else match validate_claims claims now with
           | Some e => Invalid e
           | None => Payload claims
           end
  end.

End jwt.

(** ** The password hashing library ([passlib.context.CryptContext])

    An external collaborator, taken as a parameter with the contract the
    service relies on.  The library does not take every secret: it refuses
    one that holds a NUL character, or one that is too long, with
    [PasswordValueError].  [pwd_hash] is the salted hash of a secret it
    takes.  [pwd_verify] answers for a secret and a stored string, or
    raises: for a secret it refuses, and for a stored string that is not
    one of its hashes.  A hash verifies against its plaintext and is never
    the plaintext itself; what the library raises is no HTTP error. *)

Definition has_nul (s : string) : bool :=
  existsb (Ascii.eqb zero) (list_ascii_of_string s).

Class CryptContext := {
  pwd_accepts : string -> bool;
  pwd_hash : string -> string -> string;
  pwd_verify : string -> string -> result bool;
  pwd_refuses_nul : forall secret, has_nul secret = true -> pwd_accepts secret = false;
  pwd_verify_hash : forall salt secret,
    pwd_accepts secret = true -> pwd_verify secret (pwd_hash salt secret) = Return true;
  pwd_verify_refused : forall secret hashed,
    pwd_accepts secret = false -> exists e, pwd_verify secret hashed = Raise e;
  pwd_verify_error : forall secret hashed e,
    pwd_verify secret hashed = Raise e -> status_of e = 500;
  pwd_hash_opaque : forall salt secret, pwd_hash salt secret <> secret
}.

(** [CryptContext.hash(secret)] *)
Definition CryptContext_hash (ctx : CryptContext) (salt secret : string) : result string :=
  if @pwd_accepts ctx secret then Return (@pwd_hash ctx salt secret)
  else Raise PasswordValueError.

(** ** [src/services/auth.py] *)

Module services_auth.

(** The class attributes of [Auth]; the key and the algorithm come from
    the settings. *)
Record Auth := {
  pwd_context : CryptContext;
  SECRET_KEY : string;
  ALGORITHM : string
}.

Definition verify_password (self : Auth) (plain_password hashed_password : string)
    : result bool :=
  @pwd_verify (pwd_context self) plain_password hashed_password.

(** [salt] is the randomness the library draws. *)
Definition get_password_hash (self : Auth) (salt : string) (password : string)
    : result string :=
  CryptContext_hash (pwd_context self) salt password.

(** [if expires_delta:] is false for [None] and for [0]. *)
Definition truthy (expires_delta : option Z) : bool :=
  match expires_delta with
  | Some d => negb (d =? 0)
  | None => false
  end.

Definition minutes (n : Z) : Z := n * 60.
Definition days (n : Z) : Z := n * 86400.

(** [to_encode.update({"iat": ..., "exp": ..., "scope": ...})] *)
Definition update_claims (to_encode : gmap string claim_value)
    (iat exp : Z) (scope : string) : gmap string claim_value :=
  <["scope" := CStr scope]> (<["exp" := CInt exp]> (<["iat" := CInt iat]> to_encode)).

(** The first and the last second of [datetime]: 0001-01-01T00:00:00 and
    9999-12-31T23:59:59, counted from the epoch. *)
Definition datetime_min : Z := -62135596800.
Definition datetime_max : Z := 253402300799.

(** [datetime.utcnow() + timedelta(seconds=expires_delta)] raises
    [OverflowError] when the sum is no [datetime]. *)
Definition utcnow_plus_seconds (now expires_delta : Z) : result Z :=
  if (now + expires_delta <? datetime_min) || (datetime_max <? now + expires_delta)
  then Raise OverflowError
  else Return (now + expires_delta).

(** [expires_delta] in whole seconds, [now] the reading of
    [datetime.utcnow()] in seconds: a time of the clock, weeks away from the
    end of [datetime], so that the default lifetimes do not overflow. *)
Definition create_access_token (self : Auth) (data : gmap string claim_value)
    (expires_delta : option Z) (now : Z) : result token :=
  let to_encode := data in
  expire ←
    match expires_delta with
    | Some d => if truthy expires_delta then utcnow_plus_seconds now d
                else Return (now + minutes 15)
    | None => Return (now + minutes 15)
    end;
  let to_encode := update_claims to_encode now expire "access_token" in
  Return (jwt.encode to_encode (SECRET_KEY self) (ALGORITHM self)).

Definition create_refresh_token (self : Auth) (data : gmap string claim_value)
    (expires_delta : option Z) (now : Z) : result token :=
  let to_encode := data in
  expire ←
    match expires_delta with
    | Some d => if truthy expires_delta then utcnow_plus_seconds now d
                else Return (now + days 7)
    | None => Return (now + days 7)
    end;
  let to_encode := update_claims to_encode now expire "refresh_token" in
  Return (jwt.encode to_encode (SECRET_KEY self) (ALGORITHM self)).

Definition create_email_token (self : Auth) (data : gmap string claim_value)
    (now : Z) : token :=
  let to_encode := data in
  let expire := now + days 7 in
  let to_encode := update_claims to_encode now expire "email_token" in
  jwt.encode to_encode (SECRET_KEY self) (ALGORITHM self).

Definition credentials_exception : exn :=
  HTTPException HTTP_401_UNAUTHORIZED "Could not validate credentials"
    [("WWW-Authenticate", "Bearer")].

(** [payload.get("sub")] and [payload["sub"]]; [jwt.decode] returns no
    payload whose [sub] is not a string. *)
Definition get_sub (payload : gmap string claim_value) : option string :=
  match payload !! "sub" with
  | Some (CStr s) => Some s
  | _ => None
  end.
Definition subscript_sub (payload : gmap string claim_value) : result string :=
  match get_sub payload with
  | Some s => Return s
  | None => Raise (KeyError "sub")
  end.

Definition get_current_user (self : Auth) (tok : token) (db : DB) (now : Z)
    : result User.obj :=
  match jwt.decode tok (SECRET_KEY self) [ALGORITHM self] now with
  | jwt.Payload payload =>
      if bool_decide (payload !! "scope" = Some (CStr "access_token")) then
        match get_sub payload with
        | None => Raise credentials_exception
        | Some email =>
            match repository_users.find_user_by_email email db with
            | None => Raise credentials_exception
            | Some user => Return user
            end
        end
      else Raise credentials_exception
  | jwt.Invalid _ => Raise credentials_exception
  end.

(** [payload["scope"]] raises [KeyError] when the claim is absent, which
    [except JWTError] does not catch; so does the [HTTPException] raised
    inside the [try]. *)
Definition decode_refresh_token (self : Auth) (refresh_token : token) (now : Z)
    : result string :=
  match jwt.decode refresh_token (SECRET_KEY self) [ALGORITHM self] now with
  | jwt.Payload payload =>
      match payload !! "scope" with
      | None => Raise (KeyError "scope")
      | Some scope =>
          if bool_decide (scope = CStr "refresh_token") then
            email ← subscript_sub payload;
            Return email
          else Raise (HTTPException HTTP_401_UNAUTHORIZED "Invalid scope for token" [])
      end
  | jwt.Invalid _ =>
      Raise (HTTPException HTTP_401_UNAUTHORIZED "Could not validate credentials" [])
  end.

Definition get_email_from_token (self : Auth) (tok : token) (now : Z)
    : result string :=
  match jwt.decode tok (SECRET_KEY self) [ALGORITHM self] now with
  | jwt.Payload payload =>
      match payload !! "scope" with
      | None => Raise (KeyError "scope")
      | Some scope =>
          if bool_decide (scope = CStr "email_token") then
            email ← subscript_sub payload;
            Return email
          else Raise (HTTPException HTTP_401_UNAUTHORIZED "Invalid scope for token" [])
      end
  | jwt.Invalid _ =>
      Raise (HTTPException HTTP_422_UNPROCESSABLE_ENTITY
               "Invalid token for email verification" [])
  end.

End services_auth.

(** ** [src/services/email.py]

    [send_email] runs as a background task after the response; a route only
    schedules it. *)

Record mail := mkmail { mail_to : string; mail_username : string; mail_host : string }.

(** What a request leaves behind: the response or the exception, the
    database, the background tasks it scheduled. *)
Record outcome (A : Type) := mkoutcome {
  response : result A;
  db_after : DB;
  background_tasks : list mail
}.
Arguments mkoutcome {A} _ _ _.
Arguments response {A} _.
Arguments db_after {A} _.
Arguments background_tasks {A} _.

(** [send_email] itself.  [send_message] stands for the mail transport
    ([FastMail.send_message]), an external collaborator that delivers the
    message or fails with [ConnectionErrors]; [now] is the clock read by
    [create_email_token]. *)

Module services_email.




End services_email.

(** ** [src/routes/auth.py] *)

Module routes_auth.
Section Routes.

Import services_auth.

Variable auth_service : Auth.

Record TokenModel := {
  access_token : token;
  refresh_token_ : token;
  token_type : string
}.

Definition signup (body : UserModel) (salt : string) (gravatar : option string)
    (base_url : string) (db : DB) : outcome (User.obj * string) :=
  match repository_users.find_user_by_email (um_email body) db with
  | Some exist_user =>
      mkoutcome (Raise (HTTPException HTTP_409_CONFLICT "Account already exists" []))
                db []
  | None =>
      match get_password_hash auth_service salt (um_password body) with
      | Raise e => mkoutcome (Raise e) db []
      | Return hashed =>
          let body := um_set_password hashed body in
          match repository_users.create_user body gravatar db with
          | Return (new_user, db) =>
              mkoutcome
                (Return (new_user,
                         "User successfully created. Check your email for confirmation."))
                db
                [mkmail (User.email (User.row new_user))
                        (User.name (User.row new_user)) base_url]
          | Raise e => mkoutcome (Raise e) db []
          end
      end
  end.

Definition login (username password : string) (now : Z) (db : DB)
    : outcome TokenModel :=
  match repository_users.find_user_by_email username db with
  | None =>
      mkoutcome (Raise (HTTPException HTTP_401_UNAUTHORIZED "Invalid email" [])) db []
  | Some user =>
      if negb (User.confirmed (User.row user)) then
        mkoutcome (Raise (HTTPException HTTP_401_UNAUTHORIZED "Email not confirmed" []))
                  db []
      else
        match verify_password auth_service password (User.password (User.row user)) with
        | Raise e => mkoutcome (Raise e) db []
        | Return verified =>
            if negb verified then
              mkoutcome
                (Raise (HTTPException HTTP_401_UNAUTHORIZED "Invalid password" []))
                db []
            else
              let data := {["sub" := CStr (User.email (User.row user))]} in
              match create_access_token auth_service data None now with
              | Raise e => mkoutcome (Raise e) db []
              | Return access_token =>
                  match create_refresh_token auth_service data None now with
                  | Raise e => mkoutcome (Raise e) db []
                  | Return refresh_token =>
                      let '(user, db) :=
                        repository_users.update_token user (PToken refresh_token) db in
                      mkoutcome
                        (Return (Build_TokenModel access_token refresh_token "bearer"))
                        db []
                  end
              end
        end
  end.

(** [user.refresh_token] is read off the instance the query has just
    built; when the query found nobody it is read off [None]. *)
Definition refresh_token (tok : token) (now : Z) (db : DB) : outcome TokenModel :=
  match decode_refresh_token auth_service tok now with
  | Raise e => mkoutcome (Raise e) db []
  | Return email =>
      match repository_users.find_user_by_email email db with
      | None => mkoutcome (Raise (AttributeError "refresh_token")) db []
      | Some user =>
          match User.getattr user "refresh_token" with
          | Raise e => mkoutcome (Raise e) db []
          | Return stored =>
              if negb (bool_decide (stored = PToken tok)) then
                let '(user, db) := repository_users.update_token user PNone db in
                mkoutcome
                  (Raise (HTTPException HTTP_401_UNAUTHORIZED
                            "Invalid refresh token" []))
                  db []
              else
                let data := {["sub" := CStr email]} in
                match create_access_token auth_service data None now with
                | Raise e => mkoutcome (Raise e) db []
                | Return access_token =>
                    match create_refresh_token auth_service data None now with
                    | Raise e => mkoutcome (Raise e) db []
                    | Return refresh_token =>
                        let '(user, db) :=
                          repository_users.update_token user (PToken refresh_token) db in
                        mkoutcome
                          (Return (Build_TokenModel access_token refresh_token "bearer"))
                          db []
                    end
                end
          end
      end
  end.

Definition confirmed_email (tok : token) (now : Z) (db : DB) : outcome string :=
  match get_email_from_token auth_service tok now with
  | Raise e => mkoutcome (Raise e) db []
  | Return email =>
      match repository_users.find_user_by_email email db with
      | None =>
          mkoutcome (Raise (HTTPException HTTP_400_BAD_REQUEST "Verification error" []))
                    db []
      | Some user =>
          if User.confirmed (User.row user) then
            mkoutcome (Return "Your email is already confirmed") db []
          else
            match repository_users.confirmed_email email db with
            | Return db => mkoutcome (Return "Email confirmed") db []
            | Raise e => mkoutcome (Raise e) db []
            end
      end
  end.

Definition request_email (email : string) (base_url : string) (db : DB)
    : outcome string :=
  match repository_users.find_user_by_email email db with
  | Some user =>
      if User.confirmed (User.row user) then
        mkoutcome (Return "Your email is already confirmed") db []
      else
        mkoutcome (Return "Check your email for confirmation") db
          [mkmail (User.email (User.row user)) (User.name (User.row user)) base_url]
  | None => mkoutcome (Return "Check your email for confirmation") db []
  end.

End Routes.
End routes_auth.

(** ** The routes under [/users] ([src/routes/contacts.py])

    Each route first resolves the bearer token with [get_current_user]; the
    rate limiter in front of the routes is an external collaborator and is
    left out. *)

Module routes_users.
Section Routes.

Import services_auth.

Variable auth_service : Auth.

Definition not_found : exn :=
  HTTPException 404 "User not found" [].

Definition get_user (bearer : token) (user_id : Z) (now : Z) (db : DB)
    : outcome User.obj :=
  match get_current_user auth_service bearer db now with
  | Raise e => mkoutcome (Raise e) db []
  | Return current_user =>
      match repository_users.get_user user_id db with
      | None => mkoutcome (Raise not_found) db []
      | Some user => mkoutcome (Return user) db []
      end
  end.

Definition update_user (bearer : token) (body : UserModel) (user_id : Z) (now : Z)
    (db : DB) : outcome User.obj :=
  match get_current_user auth_service bearer db now with
  | Raise e => mkoutcome (Raise e) db []
  | Return current_user =>
      match repository_users.update_user user_id body db current_user with
      | Raise e => mkoutcome (Raise e) db []
      | Return (None, db) => mkoutcome (Raise not_found) db []
      | Return (Some user, db) => mkoutcome (Return user) db []
      end
  end.

Definition remove_user (bearer : token) (user_id : Z) (now : Z) (db : DB)
    : outcome User.obj :=
  match get_current_user auth_service bearer db now with
  | Raise e => mkoutcome (Raise e) db []
  | Return current_user =>
      match repository_users.remove_user user_id db current_user with
      | (None, db) => mkoutcome (Raise not_found) db []
      | (Some user, db) => mkoutcome (Return user) db []
      end
  end.

Definition read_users_me (bearer : token) (now : Z) (db : DB) : outcome User.obj :=
  match get_current_user auth_service bearer db now with
  | Raise e => mkoutcome (Raise e) db []
  | Return current_user => mkoutcome (Return current_user) db []
  end.

End Routes.
End routes_users.

(** ** The service as a transition system

    Every request that can change the database, with what it carries.  The
    routes under [/users] authenticate the bearer token and call the
    repository; the contact operations are taken at the repository, with the
    caller the bearer token resolves to. *)

Module api.
Section Api.

Import services_auth.

Variable auth_service : Auth.

Inductive request :=
| Signup (body : UserModel) (salt : string) (gravatar : option string) (base_url : string)
| Login (username password : string)
| RefreshToken (tok : token)
| ConfirmedEmail (tok : token)
| RequestEmail (email : string) (base_url : string)
| UpdateUser (bearer : token) (user_id : Z) (body : UserModel)
| RemoveUser (bearer : token) (user_id : Z)
| UpdateAvatarUser (bearer : token) (src_url : string)
| CreateContact (body : ContactModel)
| UpdateContact (bearer : token) (contact_id : Z) (body : ContactModel)
| RemoveContact (bearer : token) (contact_id : Z).

(** The database after a request served at time [now]; a request that ends
    in an exception before its commit leaves the database as it was. *)
Definition handle (now : Z) (req : request) (db : DB) : DB :=
  match req with
  | Signup body salt gravatar base_url =>
      db_after (routes_auth.signup auth_service body salt gravatar base_url db)
  | Login username password =>
      db_after (routes_auth.login auth_service username password now db)
  | RefreshToken tok =>
      db_after (routes_auth.refresh_token auth_service tok now db)
  | ConfirmedEmail tok =>
      db_after (routes_auth.confirmed_email auth_service tok now db)
  | RequestEmail email base_url =>
      db_after (routes_auth.request_email email base_url db)
  | UpdateUser bearer user_id body =>
      match get_current_user auth_service bearer db now with
      | Return current_user =>
          match repository_users.update_user user_id body db current_user with
          | Return (_, db') => db'
          | Raise _ => db
          end
      | Raise _ => db
      end
  | RemoveUser bearer user_id =>
      match get_current_user auth_service bearer db now with
      | Return current_user =>
          snd (repository_users.remove_user user_id db current_user)
      | Raise _ => db
      end
  | UpdateAvatarUser bearer src_url =>
      match get_current_user auth_service bearer db now with
      | Return current_user =>
          match repository_users.update_avatar
                  (User.email (User.row current_user)) src_url db with
          | Return (_, db') => db'
          | Raise _ => db
          end
      | Raise _ => db
      end
  | CreateContact body => snd (repository_contacts.create_contact body db)
  | UpdateContact bearer contact_id body =>
      match get_current_user auth_service bearer db now with
      | Return current_user =>
          snd (repository_contacts.update_contact contact_id body db current_user)
      | Raise _ => db
      end
  | RemoveContact bearer contact_id =>
      match get_current_user auth_service bearer db now with
      | Return current_user =>
          snd (repository_contacts.remove_contact contact_id db current_user)
      | Raise _ => db
      end
  end.

Definition empty_db : DB := mkDB [] [] 1 1.

(** The databases the service can be in. *)
Inductive reachable : DB -> Prop :=
| reachable_empty : reachable empty_db
| reachable_step now req db : reachable db -> reachable (handle now req db).

End Api.
End api.

(** ** Notions used in the statements *)

(** No user who was confirmed before is unconfirmed after. *)
Definition confirmed_kept (db db' : DB) : Prop :=
  forall r r', r ∈ users_info db -> r' ∈ users_info db' ->
               User.id r' = User.id r ->
               User.confirmed r = true -> User.confirmed r' = true.

(** A step that maintains the schema invariant and keeps confirmations. *)
Definition good_step (db db' : DB) : Prop :=
  wf_db db -> wf_db db' /\ confirmed_kept db db'.

(** The collection [user.contacts] of the relationship: the contacts whose
    foreign key is the user's id. *)
Definition contacts_of (uid : Z) (db : DB) : list Contact.t :=
  query_all (user_id_is uid) (contacts db).

(** The database after a repository call: what the call committed or, when
    it raised, the database as it was. *)
Definition committed {A} (r : result (A * DB)) (db : DB) : DB :=
  match r with
  | Return (_, db') => db'
  | Raise _ => db
  end.

(** Claims that hold none of the registered claims which the token library
    checks besides [iat], [exp] and [sub]: no [nbf], no [aud], no [at_hash],
    and no [jti] that is not a string. *)
Definition plain_claims (data : gmap string claim_value) : Prop :=
  data !! "nbf" = None /\ data !! "aud" = None /\ data !! "at_hash" = None
  /\ forall n, data !! "jti" <> Some (CInt n).

(** ** A concrete setting for examples *)

Module example.

(** A toy hashing scheme that meets the contract of [CryptContext]: it
    takes the secrets without a NUL, and its hashes start with a dollar. *)
Definition toy_accepts (secret : string) : bool := negb (has_nul secret).
Definition toy_hash (salt secret : string) : string := String "$"%char secret.
Definition toy_verify (secret hashed : string) : result bool :=
  match hashed with
  | String c _ =>
      if Ascii.eqb c "$" then
        if toy_accepts secret then Return (String.eqb hashed (String "$"%char secret))
        else Raise PasswordValueError
      else Raise UnknownHashError
  | EmptyString => Raise UnknownHashError
  end.

Lemma toy_refuses_nul secret : has_nul secret = true -> toy_accepts secret = false.
Proof. unfold toy_accepts. by intros ->. Qed.

Lemma toy_verify_hash salt secret :
  toy_accepts secret = true -> toy_verify secret (toy_hash salt secret) = Return true.
Proof.
  intros H. unfold toy_verify, toy_hash. rewrite H.
  change (Ascii.eqb "$" "$") with true. cbv iota.
  by rewrite String.eqb_refl.
Qed.

Lemma toy_verify_refused secret hashed :
  toy_accepts secret = false -> exists e, toy_verify secret hashed = Raise e.
Proof.
  intros H. unfold toy_verify. rewrite H.
  destruct hashed as [|c h]; [by eexists|].
  destruct (Ascii.eqb c "$"); by eexists.
Qed.

Lemma toy_verify_error secret hashed e :
  toy_verify secret hashed = Raise e -> status_of e = 500.
Proof.
  unfold toy_verify. destruct hashed as [|c h]; [by intros [= <-]|].
  destruct (Ascii.eqb c "$"); [|by intros [= <-]].
  destruct (toy_accepts secret); [discriminate | by intros [= <-]].
Qed.

Lemma toy_hash_opaque salt secret : toy_hash salt secret <> secret.
Proof.
  unfold toy_hash. intros E.
  apply (f_equal String.length) in E. cbn in E. lia.
Qed.

Definition toy_context : CryptContext :=
  Build_CryptContext toy_accepts toy_hash toy_verify toy_refuses_nul toy_verify_hash
    toy_verify_refused toy_verify_error toy_hash_opaque.

Definition auth_service : services_auth.Auth :=
  services_auth.Build_Auth toy_context "secret" "HS256".

Definition alice : User.t :=
  User.mk 1 "Alice" "Archer" (mkdate 1990 1 30) "alice@example.com" "$wonderland"
          (Some "first user") None true.
Definition bob : User.t :=
  User.mk 2 "Bob" "Baker" (mkdate 1985 7 12) "bob@example.com" "$builder"
          (Some "second user") None false.

Definition alice_phone : Contact.t := Contact.mk 1 "0632428185" (Some 1).
Definition spare_phone : Contact.t := Contact.mk 2 "0501112233" None.

Definition db0 : DB := mkDB [alice; bob] [alice_phone; spare_phone] 3 3.

(** An access token of Alice, issued at time 1990 with the default
    lifetime. *)
Definition alice_bearer : token :=
  jwt.encode
    (services_auth.update_claims {["sub" := CStr "alice@example.com"]}
       1990 (1990 + services_auth.minutes 15) "access_token")
    "secret" "HS256".

Definition carol_body : UserModel :=
  Build_UserModel "Carol" "Cook" (mkdate 2000 12 31) "carol@example.com"
                  "third user" "secret1" [2].

End example.

(** * Properties *)

(** ** Queries *)

Lemma query_first_Some {T} (p : T -> bool) (table : list T) (x : T) :
  query_first p table = Some x -> x ∈ table /\ p x = true.
Proof.
  unfold query_first. intros H. apply find_some in H as [Hin Hp].
  split; [by apply list_elem_of_In | done].
Qed.

Lemma query_first_None {T} (p : T -> bool) (table : list T) :
  query_first p table = None -> forall x, x ∈ table -> p x = false.
Proof.
  unfold query_first. intros H x Hx.
  apply (find_none p table H). by apply list_elem_of_In.
Qed.


Lemma find_user_by_email_Some email db user :
  repository_users.find_user_by_email email db = Some user ->
  exists r, user = User.load r /\ r ∈ users_info db /\ User.email r = email.
Proof.
  unfold repository_users.find_user_by_email. intros H.
  destruct (query_first _ _) as [r|] eqn:E; simplify_eq/=.
  apply query_first_Some in E as [Hin Hp].
  exists r. split_and!; [done | done | by apply String.eqb_eq].
Qed.


(** ** The calendar *)

Lemma days_in_month_bounds y m : 28 <= days_in_month y m <= 31.
Proof.
  unfold days_in_month.
  destruct (m =? 2); [destruct (is_leap y); lia |].
  destruct ((m =? 4) || (m =? 6) || (m =? 9) || (m =? 11)); lia.
Qed.

Lemma next_day_in_calendar d : in_calendar d -> in_calendar (next_day d).
Proof.
  intros [Hm Hd]. unfold next_day, in_calendar.
  destruct (day d <? days_in_month (year d) (month d)) eqn:E; cbn.
  - apply Z.ltb_lt in E. lia.
  - destruct (month d <? 12) eqn:E'; cbn.
    + apply Z.ltb_lt in E'.
      pose proof (days_in_month_bounds (year d) (month d + 1)). lia.
    + pose proof (days_in_month_bounds (year d + 1) 1). lia.
Qed.

Lemma add_days_plus d (a b : nat) : add_days d (a + b) = add_days (add_days d a) b.
Proof. revert d. induction a as [|a IH]; intros d; cbn; [done | apply IH]. Qed.

(** Within the month, adding days adds to the day. *)
Lemma add_days_within_month (n : nat) d :
  day d + Z.of_nat n <= days_in_month (year d) (month d) ->
  add_days d n = mkdate (year d) (month d) (day d + Z.of_nat n).
Proof.
  revert d. induction n as [|n IH]; intros d Hle.
  - cbn. destruct d; cbn. f_equal. lia.
  - cbn [add_days].
    assert (Hnext : next_day d = mkdate (year d) (month d) (day d + 1)).
    { unfold next_day.
      destruct (day d <? days_in_month (year d) (month d)) eqn:E; [done |].
      apply Z.ltb_ge in E. lia. }
    rewrite Hnext, IH; cbn; [f_equal; lia | lia].
Qed.

(** Past the end of the month, seven days later is an early day of another
    month. *)
Lemma add_days_across_months d :
  in_calendar d ->
  days_in_month (year d) (month d) < day d + 7 ->
  month (add_days d 7) <> month d /\ day (add_days d 7) < day d.
Proof.
  intros [Hm Hd] Hcross.
  pose proof (days_in_month_bounds (year d) (month d)) as Hb.
  assert (Hj : exists j : nat,
             Z.of_nat j = days_in_month (year d) (month d) - day d /\ (j <= 6)%nat).
  { exists (Z.to_nat (days_in_month (year d) (month d) - day d)). lia. }
  destruct Hj as (j & Hjz & Hj).
  replace 7%nat with (j + S (6 - j))%nat by lia.
  rewrite add_days_plus, (add_days_within_month j d) by lia.
  cbn [add_days]. unfold next_day. cbn [year month day].
  replace (day d + Z.of_nat j) with (days_in_month (year d) (month d)) by lia.
  rewrite Z.ltb_irrefl.
  destruct (month d <? 12) eqn:E.
  - pose proof (days_in_month_bounds (year d) (month d + 1)).
    rewrite add_days_within_month; cbn; lia.
  - apply Z.ltb_ge in E.
    pose proof (days_in_month_bounds (year d + 1) 1).
    rewrite add_days_within_month; cbn; lia.
Qed.

(** ** C1: the birthday window *)

Lemma bind_Return {A B} (a : A) (k : A -> result B) : mbind k (Return a) = k a.
Proof. reflexivity. Qed.

Lemma find_next_7_days_birthdays_unfold today db tomorrow seventh :
  date_plus_days today 1 = Return tomorrow ->
  date_plus_days tomorrow 7 = Return seventh ->
  repository_users.find_next_7_days_birthdays today db =
  Return (User.load <$>
            query_all (repository_users.birthday_filter tomorrow seventh)
                      (users_info db)).
Proof.
  intros H1 H7. unfold repository_users.find_next_7_days_birthdays.
  rewrite H1, bind_Return, H7, bind_Return. reflexivity.
Qed.

Lemma elem_of_loaded_query (p : User.t -> bool) (table : list User.t) (u : User.t) :
  User.load u ∈ User.load <$> query_all p table <-> u ∈ table /\ p u = true.
Proof.
  rewrite list_elem_of_fmap. unfold query_all. split.
  - intros (r & Hr & Hin). injection Hr as <-.
    apply list_elem_of_In, filter_In in Hin as [Hin Hf].
    split; [by apply list_elem_of_In | done].
  - intros [Hin Hp]. exists u. split; [done |].
    apply list_elem_of_In, filter_In. split; [by apply list_elem_of_In | done].
Qed.

Lemma birthday_filter_true t s u :
  repository_users.birthday_filter t s u = true <->
  month (User.day_of_born u) = Z.lor (month t) (month s)
  /\ day t <= day (User.day_of_born u) <= day s.
Proof.
  unfold repository_users.birthday_filter, repository_users.date_part_month,
    repository_users.date_part_day.
  rewrite !andb_true_iff, Z.eqb_eq, Z.geb_le, Z.leb_le. tauto.
Qed.

(** Who is selected: the month of birth is the bitwise or of the months of
    the two ends of the window, and the day of birth lies between their
    days. *)
Lemma find_next_7_days_birthdays_selects today db tomorrow seventh u :
  date_plus_days today 1 = Return tomorrow ->
  date_plus_days tomorrow 7 = Return seventh ->
  exists l, repository_users.find_next_7_days_birthdays today db = Return l
            /\ (User.load u ∈ l <->
                u ∈ users_info db
                /\ month (User.day_of_born u) = Z.lor (month tomorrow) (month seventh)
                /\ day tomorrow <= day (User.day_of_born u) <= day seventh).
Proof.
  intros H1 H7. eexists. split.
  - by apply find_next_7_days_birthdays_unfold.
  - rewrite elem_of_loaded_query, birthday_filter_true. tauto.
Qed.

Lemma date_plus_days_Return d n r :
  date_plus_days d n = Return r -> r = add_days d n.
Proof.
  unfold date_plus_days. destruct (9999 <? year (add_days d n)); [discriminate |].
  by intros [= <-].
Qed.

(** Over a month boundary the window is empty: the days run from a late day
    of one month to an early day of the next, and no day of birth lies
    between. *)
Lemma find_next_7_days_birthdays_across_months today db tomorrow seventh :
  in_calendar today ->
  date_plus_days today 1 = Return tomorrow ->
  date_plus_days tomorrow 7 = Return seventh ->
  month seventh <> month tomorrow ->
  repository_users.find_next_7_days_birthdays today db = Return [].
Proof.
  intros Hcal H1 H7 Hmonth.
  rewrite (find_next_7_days_birthdays_unfold _ _ _ _ H1 H7).
  apply date_plus_days_Return in H1, H7. cbn in H1.
  assert (Hcal' : in_calendar tomorrow) by (subst tomorrow; by apply next_day_in_calendar).
  clear H1 Hcal today.
  assert (Hlate : days_in_month (year tomorrow) (month tomorrow) < day tomorrow + 7).
  { apply Z.nle_gt. intros Hle. apply Hmonth. rewrite H7.
    rewrite add_days_within_month; [done | cbn; lia]. }
  destruct (add_days_across_months tomorrow Hcal' Hlate) as [_ Hday].
  rewrite <- H7 in Hday. clear H7 Hlate Hmonth Hcal'.
  f_equal. unfold query_all.
  induction (users_info db) as [|u l IH]; cbn; [done |].
  destruct (repository_users.birthday_filter tomorrow seventh u) eqn:E; [| exact IH].
  apply birthday_filter_true in E as [_ E]. lia.
Qed.

Lemma birthday_in_window_within_month today born :
  let tomorrow := next_day today in
  day tomorrow + 7 <= days_in_month (year tomorrow) (month tomorrow) ->
  repository_users.birthday_in_window today born = true <->
  month born = month tomorrow /\ day tomorrow <= day born <= day tomorrow + 7.
Proof.
  cbn zeta. intros Hle. unfold repository_users.birthday_in_window.
  rewrite existsb_exists. split.
  - intros (k & Hk & Hs). apply in_seq in Hk. cbn [add_days] in Hs.
    rewrite add_days_within_month in Hs by lia.
    unfold repository_users.same_month_day in Hs. cbn in Hs.
    apply andb_prop in Hs as [Hm Hd]. apply Z.eqb_eq in Hm, Hd. lia.
  - intros (Hm & Hd). exists (Z.to_nat (day born - day (next_day today))). split.
    + apply in_seq. lia.
    + cbn [add_days]. rewrite add_days_within_month by lia.
      unfold repository_users.same_month_day. cbn.
      apply andb_true_intro. split; apply Z.eqb_eq; lia.
Qed.

(** Inside one month the query is right: it returns the users whose
    birthday falls in the window. *)
Lemma find_next_7_days_birthdays_within_month today db tomorrow seventh u :
  in_calendar today ->
  date_plus_days today 1 = Return tomorrow ->
  date_plus_days tomorrow 7 = Return seventh ->
  month seventh = month tomorrow ->
  exists l,
    repository_users.find_next_7_days_birthdays today db = Return l
    /\ (User.load u ∈ l <->
        u ∈ users_info db
        /\ repository_users.birthday_in_window today (User.day_of_born u) = true).
Proof.
  intros Hcal H1 H7 Hmonth. eexists. split.
  - by apply find_next_7_days_birthdays_unfold.
  - rewrite elem_of_loaded_query, birthday_filter_true.
    apply date_plus_days_Return in H1, H7. cbn in H1.
    assert (Hcal' : in_calendar tomorrow)
      by (subst tomorrow; by apply next_day_in_calendar).
    assert (Hle : day tomorrow + 7 <= days_in_month (year tomorrow) (month tomorrow)).
    { apply Z.nlt_ge. intros Hlate.
      destruct (add_days_across_months tomorrow Hcal' Hlate) as [Hne _].
      apply Hne. by rewrite <- H7. }
    rewrite add_days_within_month in H7 by lia.
    subst seventh. cbn [month day]. rewrite Z.lor_diag. subst tomorrow.
    rewrite (birthday_in_window_within_month today (User.day_of_born u) Hle).
    tauto.
Qed.

(** C1 (defect).  On 27 January 2024 the window runs from 28 January to
    4 February.  A user born on 30 January has a birthday inside the window,
    yet the query returns nobody: the month is compared with [1 | 2 = 3] and
    the day with the empty range [28..4]. *)
Theorem find_next_7_days_birthdays_misses_month_boundary :
  let today := mkdate 2024 1 27 in
  example.alice ∈ users_info example.db0
  /\ repository_users.birthday_in_window today (User.day_of_born example.alice) = true
  /\ repository_users.find_next_7_days_birthdays today example.db0 = Return [].
Proof.
  cbn zeta. split_and!.
  - unfold example.db0; cbn. apply list_elem_of_here.
  - vm_compute. reflexivity.
  - vm_compute. reflexivity.
Qed.

(** ** C2: the refresh route *)

Lemma getattr_load r attr : User.getattr (User.load r) attr = Raise (AttributeError attr).
Proof. unfold User.getattr, User.load. cbn. by rewrite lookup_empty. Qed.

(** [refresh_token] is not among the attributes the mapper instruments
    (neither is [phones]). *)
Lemma refresh_token_not_mapped :
  ("refresh_token" ∉ User.mapped) /\ ("phones" ∉ User.mapped).
Proof.
  split; apply (bool_decide_unpack _); vm_compute; exact I.
Qed.

(** As in [test_update_token]: on the instance that was assigned to, the
    attribute reads back; the database is not touched. *)
Example update_token_sets_instance_attribute :
  let '(user, db) :=
    repository_users.update_token (User.load example.alice) (PToken (Opaque "t"))
      example.db0 in
  User.getattr user "refresh_token" = Return (PToken (Opaque "t"))
  /\ db = example.db0
  /\ repository_users.find_user_by_email "alice@example.com" db
     = Some (User.load example.alice).
Proof. vm_compute. split_and!; reflexivity. Qed.

(** Whatever token is presented, once it decodes the route stops at the
    read of [user.refresh_token]: no instance that a query builds has that
    attribute.  Nothing is compared and nothing is cleared. *)
Lemma refresh_token_raises auth tok now db email :
  services_auth.decode_refresh_token auth tok now = Return email ->
  routes_auth.refresh_token auth tok now db
  = mkoutcome (Raise (AttributeError "refresh_token")) db [].
Proof.
  intros Hd. unfold routes_auth.refresh_token. rewrite Hd.
  destruct (repository_users.find_user_by_email email db) as [user|] eqn:E;
    [| reflexivity].
  apply find_user_by_email_Some in E as (r & -> & _).
  by rewrite getattr_load.
Qed.

(** What [login] leaves in the database: nothing. *)
Lemma login_db_after auth username password now db :
  db_after (routes_auth.login auth username password now db) = db.
Proof.
  unfold routes_auth.login.
  destruct (repository_users.find_user_by_email username db) as [user|]; [| done].
  destruct (negb (User.confirmed (User.row user))); [done |].
  destruct (services_auth.verify_password auth password _) as [[]|e]; done.
Qed.

(** C2 (defect).  Alice logs in at time 900 and again at time 1000; the
    refresh token of the first login is now stale.  Presenting it at time
    1001 decodes to her address and then fails with [AttributeError] (a
    500), not with the 401 of a rejected token; presenting the current one
    fails in the same way. *)
Theorem refresh_token_stale_token_raises_attribute_error :
  let auth := example.auth_service in
  let first := routes_auth.login auth "alice@example.com" "wonderland" 900 example.db0 in
  let db1 := db_after first in
  let second := routes_auth.login auth "alice@example.com" "wonderland" 1000 db1 in
  let db2 := db_after second in
  exists access access' stale current,
    services_auth.create_access_token auth {["sub" := CStr "alice@example.com"]} None 900
    = Return access
    /\ services_auth.create_access_token auth {["sub" := CStr "alice@example.com"]} None 1000
       = Return access'
    /\ response first = Return (routes_auth.Build_TokenModel access stale "bearer")
    /\ response second = Return (routes_auth.Build_TokenModel access' current "bearer")
    /\ stale <> current
    /\ services_auth.decode_refresh_token auth stale 1001 = Return "alice@example.com"
    /\ routes_auth.refresh_token auth stale 1001 db2
       = mkoutcome (Raise (AttributeError "refresh_token")) db2 []
    /\ routes_auth.refresh_token auth current 1001 db2
       = mkoutcome (Raise (AttributeError "refresh_token")) db2 []
    /\ status_of (AttributeError "refresh_token") <> HTTP_401_UNAUTHORIZED.
Proof.
  cbn zeta. rewrite !login_db_after.
  eexists _, _, _, _. split_and!.
  - reflexivity.
  - reflexivity.
  - vm_compute. reflexivity.
  - vm_compute. reflexivity.
  - intros E. apply (f_equal (fun t => match t with
                                       | JWS _ _ c => c !! "iat"
                                       | Opaque _ => None
                                       end)) in E.
    vm_compute in E. discriminate.
  - vm_compute. reflexivity.
  - apply (refresh_token_raises _ _ _ _ "alice@example.com"). vm_compute. reflexivity.
  - apply (refresh_token_raises _ _ _ _ "alice@example.com"). vm_compute. reflexivity.
  - vm_compute. discriminate.
Qed.

(** ** C3: signup *)






(** ** The schema invariant *)

Lemma NoDup_map_elem_eq {A B} (f : A -> B) (l : list A) (x y : A) :
  NoDup (map f l) -> x ∈ l -> y ∈ l -> f x = f y -> x = y.
Proof.
  induction l as [|a l IH]; cbn; intros Hnd Hx Hy Hf.
  - by apply not_elem_of_nil in Hx.
  - apply NoDup_cons in Hnd as [Ha Hnd].
    apply elem_of_cons in Hx as [->|Hx]; apply elem_of_cons in Hy as [->|Hy].
    + done.
    + exfalso. apply Ha. rewrite Hf. apply list_elem_of_In, in_map.
      by apply list_elem_of_In.
    + exfalso. apply Ha. rewrite <- Hf. apply list_elem_of_In, in_map.
      by apply list_elem_of_In.
    + by apply IH.
Qed.

Lemma elem_of_map_1 {A B} (f : A -> B) (l : list A) (x : A) :
  x ∈ l -> f x ∈ map f l.
Proof. intros H. apply list_elem_of_In, in_map. by apply list_elem_of_In. Qed.

Lemma elem_of_map_inv {A B} (f : A -> B) (l : list A) (y : B) :
  y ∈ map f l -> exists x, f x = y /\ x ∈ l.
Proof.
  intros H. apply list_elem_of_In, in_map_iff in H as (x & Hx & Hin).
  exists x. split; [done | by apply list_elem_of_In].
Qed.

Lemma elem_of_filter_inv {A} (p : A -> bool) (l : list A) (x : A) :
  x ∈ List.filter p l -> x ∈ l /\ p x = true.
Proof.
  intros H. apply list_elem_of_In, filter_In in H as [Hin Hp].
  split; [by apply list_elem_of_In | done].
Qed.

Lemma replace_user_id r x : User.id (replace_user r x) = User.id x.
Proof.
  unfold replace_user. destruct (User.id x =? User.id r) eqn:E; [| done].
  apply Z.eqb_eq in E. done.
Qed.

Lemma replace_contact_id c x : Contact.id (replace_contact c x) = Contact.id x.
Proof.
  unfold replace_contact. destruct (Contact.id x =? Contact.id c) eqn:E; [| done].
  apply Z.eqb_eq in E. done.
Qed.

Lemma map_id_replace_user r l : map User.id (map (replace_user r) l) = map User.id l.
Proof.
  rewrite map_map. apply map_ext. intros x. apply replace_user_id.
Qed.

Lemma map_id_replace_contact c l :
  map Contact.id (map (replace_contact c) l) = map Contact.id l.
Proof.
  rewrite map_map. apply map_ext. intros x. apply replace_contact_id.
Qed.

Lemma Forall_below_ids {A} (f : A -> Z) (bound : Z) (l : list A) :
  Forall (fun x => f x < bound) l <-> Forall (fun i => i < bound) (map f l).
Proof.
  induction l as [|a l IH]; cbn.
  - split; constructor.
  - rewrite !Forall_cons, IH. tauto.
Qed.

Lemma NoDup_map_filter {A B} (f : A -> B) (p : A -> bool) (l : list A) :
  NoDup (map f l) -> NoDup (map f (List.filter p l)).
Proof.
  induction l as [|a l IH]; cbn; [done |].
  intros Hnd. apply NoDup_cons in Hnd as [Ha Hnd].
  destruct (p a); cbn; [| by apply IH].
  apply NoDup_cons. split; [| by apply IH].
  intros Hin. apply Ha.
  apply elem_of_map_inv in Hin as (x & Hx & Hin).
  apply elem_of_filter_inv in Hin as [Hin _].
  rewrite <- Hx. by apply elem_of_map_1.
Qed.

Lemma Forall_filter_keep {A} (P : A -> Prop) (p : A -> bool) (l : list A) :
  Forall P l -> Forall P (List.filter p l).
Proof.
  rewrite !Forall_forall. intros H x Hx.
  apply elem_of_filter_inv in Hx as [Hx _]. by apply H.
Qed.

(** The unique index holds after an accepted [UPDATE]. *)
Lemma NoDup_emails_replace r l :
  NoDup (map User.id l) -> NoDup (map User.email l) ->
  (forall x, x ∈ l -> User.id x <> User.id r -> User.email x <> User.email r) ->
  NoDup (map User.email (map (replace_user r) l)).
Proof.
  induction l as [|a l IH]; cbn; intros Hids Hem Hfree; [constructor |].
  apply NoDup_cons in Hids as [Hida Hids]. apply NoDup_cons in Hem as [Hema Hem].
  apply NoDup_cons. split.
  - intros Hin. apply elem_of_map_inv in Hin as (y & Hy & Hin).
    apply elem_of_map_inv in Hin as (x & <- & Hx).
    unfold replace_user in Hy at 1. unfold replace_user in Hy.
    destruct (User.id x =? User.id r) eqn:Ex; destruct (User.id a =? User.id r) eqn:Ea.
    + apply Z.eqb_eq in Ex, Ea. apply Hida. rewrite Ea, <- Ex. by apply elem_of_map_1.
    + apply Z.eqb_neq in Ea. apply (Hfree a); [apply list_elem_of_here | done | done].
    + apply Z.eqb_neq in Ex.
      apply (Hfree x); [by apply list_elem_of_further | done | done].
    + apply Hema. rewrite <- Hy. by apply elem_of_map_1.
  - apply IH; [done | done |].
    intros x Hx. apply Hfree. by apply list_elem_of_further.
Qed.

Lemma flush_user_check r l :
  existsb (fun x => negb (User.id x =? User.id r)
                    && String.eqb (User.email x) (User.email r)) l = false ->
  forall x, x ∈ l -> User.id x <> User.id r -> User.email x <> User.email r.
Proof.
  intros Hc x Hx Hid Hem.
  assert (E : existsb (fun x => negb (User.id x =? User.id r)
                                && String.eqb (User.email x) (User.email r)) l = true).
  { apply existsb_exists. exists x. split; [by apply list_elem_of_In |].
    apply andb_true_intro. split.
    - apply negb_true_iff. by apply Z.eqb_neq.
    - by apply String.eqb_eq. }
  congruence.
Qed.

Lemma flush_user_wf r db db' :
  wf_db db -> flush_user r db = Return db' -> wf_db db'.
Proof.
  intros [Hids Hseq Hem Hcids Hcseq]. unfold flush_user.
  destruct (existsb _ _) eqn:Hc; [discriminate |].
  intros [= <-]. constructor; cbn; try done.
  - by rewrite map_id_replace_user.
  - apply Forall_below_ids. rewrite map_id_replace_user.
    by apply (proj1 (Forall_below_ids User.id _ _)).
  - apply NoDup_emails_replace; [done | done |]. by apply flush_user_check.
Qed.

Lemma insert_user_wf mk_row db r db' :
  (forall i, User.id (mk_row i) = i) ->
  wf_db db -> insert_user mk_row db = Return (r, db') -> wf_db db'.
Proof.
  intros Hmk [Hids Hseq Hem Hcids Hcseq]. unfold insert_user.
  destruct (existsb _ _) eqn:Hc; [discriminate |].
  intros [= <- <-]. constructor; cbn; try done.
  - rewrite map_app. cbn. rewrite Hmk. apply NoDup_app. split_and!.
    + done.
    + intros i Hi Hi'. apply list_elem_of_singleton in Hi'. subst i.
      apply elem_of_map_inv in Hi as (x & Hx & Hin).
      rewrite Forall_forall in Hseq. specialize (Hseq x Hin). cbn in Hseq. lia.
    + apply NoDup_singleton.
  - apply Forall_app. split.
    + eapply Forall_impl; [exact Hseq |]. cbn. intros x Hx. lia.
    + constructor; [| constructor]. rewrite Hmk. lia.
  - rewrite map_app. cbn. apply NoDup_app. split_and!.
    + done.
    + intros e He He'. apply list_elem_of_singleton in He'. subst e.
      apply elem_of_map_inv in He as (x & Hx & Hin).
      assert (E : existsb (fun x => String.eqb (User.email x)
                     (User.email (mk_row (users_info_id_seq db)))) (users_info db) = true).
      { apply existsb_exists. exists x. split; [by apply list_elem_of_In |].
        by apply String.eqb_eq. }
      congruence.
    + apply NoDup_singleton.
Qed.

Lemma delete_user_wf r db : wf_db db -> wf_db (delete_user r db).
Proof.
  intros [Hids Hseq Hem Hcids Hcseq]. constructor; cbn.
  - by apply NoDup_map_filter.
  - by apply Forall_filter_keep.
  - by apply NoDup_map_filter.
  - rewrite map_map. erewrite map_ext; [exact Hcids |].
    intros c. cbn. by destruct (user_id_is _ c).
  - apply Forall_below_ids. rewrite map_map.
    erewrite map_ext; [apply (proj1 (Forall_below_ids Contact.id _ _)); exact Hcseq |].
    intros c. cbn. by destruct (user_id_is _ c).
Qed.

Lemma set_contacts_wf (f : Contact.t -> Contact.t) db :
  (forall c, Contact.id (f c) = Contact.id c) ->
  wf_db db -> wf_db (set_contacts (map f (contacts db)) db).
Proof.
  intros Hf [Hids Hseq Hem Hcids Hcseq]. constructor; cbn; try done.
  - rewrite map_map. erewrite map_ext; [exact Hcids | done].
  - apply Forall_below_ids. rewrite map_map.
    erewrite map_ext; [apply (proj1 (Forall_below_ids Contact.id _ _)); exact Hcseq | done].
Qed.

Lemma flush_contact_wf c db : wf_db db -> wf_db (flush_contact c db).
Proof. apply set_contacts_wf. apply replace_contact_id. Qed.

Lemma delete_contact_wf c db : wf_db db -> wf_db (delete_contact c db).
Proof.
  intros [Hids Hseq Hem Hcids Hcseq]. constructor; cbn; try done.
  - by apply NoDup_map_filter.
  - by apply Forall_filter_keep.
Qed.

Lemma insert_contact_wf mk_row db c db' :
  (forall i, Contact.id (mk_row i) = i) ->
  wf_db db -> insert_contact mk_row db = (c, db') -> wf_db db'.
Proof.
  intros Hmk [Hids Hseq Hem Hcids Hcseq]. unfold insert_contact.
  intros [= <- <-]. constructor; cbn; try done.
  - rewrite map_app. cbn. rewrite Hmk. apply NoDup_app. split_and!.
    + done.
    + intros i Hi Hi'. apply list_elem_of_singleton in Hi'. subst i.
      apply elem_of_map_inv in Hi as (x & Hx & Hin).
      rewrite Forall_forall in Hcseq. specialize (Hcseq x Hin). cbn in Hcseq. lia.
    + apply NoDup_singleton.
  - apply Forall_app. split.
    + eapply Forall_impl; [exact Hcseq |]. cbn. intros x Hx. lia.
    + constructor; [| constructor]. rewrite Hmk. lia.
Qed.

(** ** The confirmed flag along a step *)

Lemma confirmed_kept_sub db db' :
  wf_db db -> (forall x, x ∈ users_info db' -> x ∈ users_info db) ->
  confirmed_kept db db'.
Proof.
  intros Hwf Hsub r r' Hr Hr' Hid Hc.
  assert (r' = r) as ->; [| done].
  apply (NoDup_map_elem_eq User.id (users_info db)); [apply Hwf | by apply Hsub | done | done].
Qed.

Lemma good_step_refl db : good_step db db.
Proof. intros Hwf. split; [done |]. by apply confirmed_kept_sub. Qed.

Lemma good_step_same_users db db' :
  users_info db' = users_info db -> (wf_db db -> wf_db db') -> good_step db db'.
Proof.
  intros Hu Hwf' Hwf. split; [by apply Hwf' |].
  apply confirmed_kept_sub; [done |]. by rewrite Hu.
Qed.

Lemma flush_user_good r f db db' :
  f ∈ users_info db -> User.id r = User.id f ->
  (User.confirmed f = true -> User.confirmed r = true) ->
  flush_user r db = Return db' -> good_step db db'.
Proof.
  intros Hf Hid Hconf Hflush Hwf. split; [by eapply flush_user_wf |].
  unfold flush_user in Hflush. destruct (existsb _ _); [discriminate |].
  injection Hflush as <-. cbn.
  intros r0 r' Hr0 Hr' Hid' Hc. cbn in Hr'.
  apply elem_of_map_inv in Hr' as (x & <- & Hx).
  rewrite replace_user_id in Hid'. unfold replace_user.
  assert (x = r0) as ->
    by (apply (NoDup_map_elem_eq User.id (users_info db)); [apply Hwf | done..]).
  destruct (User.id r0 =? User.id r) eqn:E; [| done].
  apply Z.eqb_eq in E. apply Hconf.
  assert (f = r0) as ->; [| done].
  apply (NoDup_map_elem_eq User.id (users_info db)); [apply Hwf | done | done | congruence].
Qed.

Lemma insert_user_good mk_row db r db' :
  (forall i, User.id (mk_row i) = i) ->
  insert_user mk_row db = Return (r, db') -> good_step db db'.
Proof.
  intros Hmk Hins Hwf. split; [by eapply insert_user_wf |].
  unfold insert_user in Hins. destruct (existsb _ _); [discriminate |].
  injection Hins as <- <-. cbn.
  intros r0 r' Hr0 Hr' Hid Hc. cbn in Hr'.
  apply elem_of_app in Hr' as [Hr'|Hr'].
  - assert (r' = r0) as ->; [| done].
    apply (NoDup_map_elem_eq User.id (users_info db)); [apply Hwf | done..].
  - apply list_elem_of_singleton in Hr'. subst r'. rewrite Hmk in Hid.
    pose proof (wf_user_seq db Hwf) as Hseq. rewrite Forall_forall in Hseq.
    specialize (Hseq r0 Hr0). cbn in Hseq. lia.
Qed.

Lemma delete_user_good r db : good_step db (delete_user r db).
Proof.
  intros Hwf. split; [by apply delete_user_wf |].
  apply confirmed_kept_sub; [done |]. cbn. intros x Hx.
  by apply elem_of_filter_inv in Hx as [Hx _].
Qed.

(** *** The repository *)

Lemma update_user_good user_id body db user res db' :
  repository_users.update_user user_id body db user = Return (res, db') ->
  good_step db db'.
Proof.
  unfold repository_users.update_user.
  destruct (query_first _ _) as [f|] eqn:E.
  - cbn. destruct (flush_user _ db) as [db1|e] eqn:Hflush; cbn; [| discriminate].
    intros [= _ <-]. apply query_first_Some in E as [Hf _].
    eapply flush_user_good; [exact Hf | | | exact Hflush]; done.
  - intros [= _ <-]. apply good_step_refl.
Qed.

Lemma remove_user_good user_id db user :
  good_step db (snd (repository_users.remove_user user_id db user)).
Proof.
  unfold repository_users.remove_user.
  destruct (query_first _ _) as [f|]; cbn;
    [apply delete_user_good | apply good_step_refl].
Qed.

Lemma update_avatar_good email url db user db' :
  repository_users.update_avatar email url db = Return (user, db') ->
  good_step db db'.
Proof.
  unfold repository_users.update_avatar.
  destruct (repository_users.find_user_by_email email db) as [o|] eqn:E;
    [| discriminate].
  apply find_user_by_email_Some in E as (f & -> & Hf & _). cbn.
  destruct (255 <? _); [discriminate |].
  destruct (flush_user _ db) as [db1|e] eqn:Hflush; cbn; [| discriminate].
  intros [= _ <-]. eapply flush_user_good; [exact Hf | | | exact Hflush]; done.
Qed.

Lemma confirmed_email_good email db db' :
  repository_users.confirmed_email email db = Return db' -> good_step db db'.
Proof.
  unfold repository_users.confirmed_email.
  destruct (repository_users.find_user_by_email email db) as [o|] eqn:E;
    [| discriminate].
  apply find_user_by_email_Some in E as (f & -> & Hf & _). cbn.
  intros Hflush. eapply flush_user_good; [exact Hf | | | exact Hflush]; done.
Qed.

Lemma create_user_good body gravatar db user db' :
  repository_users.create_user body gravatar db = Return (user, db') ->
  good_step db db'.
Proof.
  unfold repository_users.create_user.
  destruct (insert_user _ db) as [[r db1]|e] eqn:Hins; cbn; [| discriminate].
  intros [= _ <-] Hwf.
  assert (Hgood : good_step db db1) by (eapply insert_user_good; [| exact Hins]; done).
  destruct (Hgood Hwf) as [Hwf1 Hk].
  split.
  - apply set_contacts_wf; [| done]. intros c. by destruct (id_in _ c).
  - exact Hk.
Qed.

Lemma create_contact_good body db :
  good_step db (snd (repository_contacts.create_contact body db)).
Proof.
  apply good_step_same_users; [done |]. intros Hwf.
  eapply (insert_contact_wf _ db); [| done | apply surjective_pairing].
  done.
Qed.

Lemma update_contact_good contact_id body db user :
  good_step db (snd (repository_contacts.update_contact contact_id body db user)).
Proof.
  unfold repository_contacts.update_contact.
  destruct (query_first _ _) as [c|]; cbn; [| apply good_step_refl].
  apply good_step_same_users; [done | apply flush_contact_wf].
Qed.

Lemma remove_contact_good contact_id db user :
  good_step db (snd (repository_contacts.remove_contact contact_id db user)).
Proof.
  unfold repository_contacts.remove_contact.
  destruct (query_first _ _) as [c|]; cbn; [| apply good_step_refl].
  apply good_step_same_users; [done | apply delete_contact_wf].
Qed.

(** *** The routes *)

Lemma signup_good auth body salt gravatar base_url db :
  good_step db (db_after (routes_auth.signup auth body salt gravatar base_url db)).
Proof.
  unfold routes_auth.signup.
  destruct (repository_users.find_user_by_email _ db); [apply good_step_refl |].
  destruct (services_auth.get_password_hash auth salt _) as [hashed|e];
    [| apply good_step_refl].
  destruct (repository_users.create_user _ gravatar db) as [[o db1]|e] eqn:E; cbn;
    [| apply good_step_refl].
  by eapply create_user_good.
Qed.

Lemma refresh_token_db_after auth tok now db :
  db_after (routes_auth.refresh_token auth tok now db) = db.
Proof.
  unfold routes_auth.refresh_token.
  destruct (services_auth.decode_refresh_token auth tok now) as [email|]; [| done].
  destruct (repository_users.find_user_by_email email db) as [user|]; [| done].
  destruct (User.getattr user "refresh_token") as [stored|]; [| done].
  by destruct (negb (bool_decide (stored = PToken tok))).
Qed.

Lemma request_email_db_after email base_url db :
  db_after (routes_auth.request_email email base_url db) = db.
Proof.
  unfold routes_auth.request_email.
  destruct (repository_users.find_user_by_email email db) as [user|]; [| done].
  by destruct (User.confirmed (User.row user)).
Qed.

Lemma confirmed_email_route_good auth tok now db :
  good_step db (db_after (routes_auth.confirmed_email auth tok now db)).
Proof.
  unfold routes_auth.confirmed_email.
  destruct (services_auth.get_email_from_token auth tok now) as [email|];
    [| apply good_step_refl].
  destruct (repository_users.find_user_by_email email db) as [user|];
    [| apply good_step_refl].
  destruct (User.confirmed (User.row user)); [apply good_step_refl |].
  destruct (repository_users.confirmed_email email db) as [db1|e] eqn:E; cbn;
    [| apply good_step_refl].
  by eapply confirmed_email_good.
Qed.

(** Every request is a good step. *)
Lemma handle_good auth now req db : good_step db (api.handle auth now req db).
Proof.
  destruct req; cbn.
  - apply signup_good.
  - rewrite login_db_after. apply good_step_refl.
  - rewrite refresh_token_db_after. apply good_step_refl.
  - apply confirmed_email_route_good.
  - rewrite request_email_db_after. apply good_step_refl.
  - destruct (services_auth.get_current_user auth bearer db now) as [cu|];
      [| apply good_step_refl].
    destruct (repository_users.update_user _ _ db cu) as [[res db1]|e] eqn:E;
      [| apply good_step_refl].
    by eapply update_user_good.
  - destruct (services_auth.get_current_user auth bearer db now) as [cu|];
      [| apply good_step_refl].
    apply remove_user_good.
  - destruct (services_auth.get_current_user auth bearer db now) as [cu|];
      [| apply good_step_refl].
    destruct (repository_users.update_avatar _ _ db) as [[res db1]|e] eqn:E;
      [| apply good_step_refl].
    by eapply update_avatar_good.
  - apply create_contact_good.
  - destruct (services_auth.get_current_user auth bearer db now) as [cu|];
      [| apply good_step_refl].
    apply update_contact_good.
  - destruct (services_auth.get_current_user auth bearer db now) as [cu|];
      [| apply good_step_refl].
    apply remove_contact_good.
Qed.

(** The schema invariant holds of every database the service reaches. *)
Lemma reachable_wf auth db : api.reachable auth db -> wf_db db.
Proof.
  induction 1 as [|now req db Hreach IH].
  - constructor; cbn; constructor.
  - by apply (handle_good auth now req db).
Qed.

(** ** C4: email confirmation *)

Lemma find_user_by_email_unique db r :
  NoDup (map User.email (users_info db)) -> r ∈ users_info db ->
  repository_users.find_user_by_email (User.email r) db = Some (User.load r).
Proof.
  unfold repository_users.find_user_by_email, query_first.
  generalize (users_info db). intros l.
  induction l as [|a l IH]; cbn; intros Hnd Hr.
  - by apply not_elem_of_nil in Hr.
  - apply NoDup_cons in Hnd as [Ha Hnd].
    destruct (String.eqb (User.email a) (User.email r)) eqn:E.
    + apply String.eqb_eq in E. apply elem_of_cons in Hr as [->|Hr]; [done |].
      exfalso. apply Ha. rewrite E. by apply elem_of_map_1.
    + apply elem_of_cons in Hr as [->|Hr].
      * by rewrite String.eqb_refl in E.
      * by apply IH.
Qed.

(** An [UPDATE] that leaves the address alone is accepted. *)
Lemma flush_user_same_email r f db :
  wf_db db -> f ∈ users_info db ->
  User.id r = User.id f -> User.email r = User.email f ->
  flush_user r db
  = Return (set_users_info (map (replace_user r) (users_info db)) db).
Proof.
  intros Hwf Hf Hid Hem. unfold flush_user.
  destruct (existsb _ _) eqn:E; [| done].
  apply existsb_exists in E as (x & Hx & Hp). apply list_elem_of_In in Hx.
  apply andb_prop in Hp as [Hne Heq].
  apply negb_true_iff, Z.eqb_neq in Hne. apply String.eqb_eq in Heq.
  exfalso. apply Hne. rewrite Hid. f_equal.
  apply (NoDup_map_elem_eq User.email (users_info db));
    [apply Hwf | done | done | congruence].
Qed.

Lemma elem_of_replace_user r f l :
  f ∈ l -> User.id r = User.id f -> r ∈ map (replace_user r) l.
Proof.
  intros Hf Hid. apply list_elem_of_In, in_map_iff. exists f.
  split; [| by apply list_elem_of_In].
  unfold replace_user. by rewrite Hid, Z.eqb_refl.
Qed.

(** The first confirmation sets the flag. *)
Lemma confirmed_email_first auth tok now db email user :
  wf_db db ->
  services_auth.get_email_from_token auth tok now = Return email ->
  repository_users.find_user_by_email email db = Some user ->
  User.confirmed (User.row user) = false ->
  let confirmed_user := User.set_confirmed true (User.row user) in
  response (routes_auth.confirmed_email auth tok now db) = Return "Email confirmed"
  /\ repository_users.find_user_by_email email
       (db_after (routes_auth.confirmed_email auth tok now db))
     = Some (User.load confirmed_user)
  /\ User.confirmed confirmed_user = true.
Proof.
  intros Hwf Htok Hfind Hunc confirmed_user.
  pose proof (confirmed_email_route_good auth tok now db Hwf) as [Hwf' _].
  revert Hwf'. unfold routes_auth.confirmed_email. rewrite Htok, Hfind, Hunc.
  unfold repository_users.confirmed_email. rewrite Hfind.
  apply find_user_by_email_Some in Hfind as (f & -> & Hf & Hem). cbn in *.
  rewrite (flush_user_same_email (User.set_confirmed true f) f db Hwf Hf eq_refl eq_refl).
  cbn.
  intros Hwf'. split_and!; [done | | done].
  subst email.
  apply (find_user_by_email_unique
           (set_users_info
              (map (replace_user (User.set_confirmed true f)) (users_info db)) db)
           (User.set_confirmed true f)).
  - apply Hwf'.
  - cbn. by apply (elem_of_replace_user _ f).
Qed.

(** A second confirmation changes nothing. *)
Lemma confirmed_email_again auth tok now db email user :
  services_auth.get_email_from_token auth tok now = Return email ->
  repository_users.find_user_by_email email db = Some user ->
  User.confirmed (User.row user) = true ->
  routes_auth.confirmed_email auth tok now db
  = mkoutcome (Return "Your email is already confirmed") db [].
Proof.
  intros Htok Hfind Hc. unfold routes_auth.confirmed_email.
  by rewrite Htok, Hfind, Hc.
Qed.

(** C4.  In a database that satisfies the schema: no request of the service
    turns a confirmed user into an unconfirmed one; the first confirmation
    of an address answers "Email confirmed" and leaves the user confirmed:
    the row found under the address afterwards has the flag [confirmed] set
    and every other column as it was; confirming an address that is already
    confirmed answers "Your email is already confirmed" and leaves the
    database as it was. *)
Theorem confirmed_flag_only_rises auth now db :
  wf_db db ->
  (forall req r r',
     r ∈ users_info db -> r' ∈ users_info (api.handle auth now req db) ->
     User.id r' = User.id r -> User.confirmed r = true -> User.confirmed r' = true)
  /\ (forall tok email user,
        services_auth.get_email_from_token auth tok now = Return email ->
        repository_users.find_user_by_email email db = Some user ->
        if User.confirmed (User.row user)
        then routes_auth.confirmed_email auth tok now db
             = mkoutcome (Return "Your email is already confirmed") db []
        else response (routes_auth.confirmed_email auth tok now db)
             = Return "Email confirmed"
             /\ repository_users.find_user_by_email email
                  (db_after (routes_auth.confirmed_email auth tok now db))
                = Some (User.load (User.set_confirmed true (User.row user)))
             /\ (exists r',
                   repository_users.find_user_by_email email
                     (db_after (routes_auth.confirmed_email auth tok now db))
                   = Some (User.load r')
                   /\ r' ∈ users_info
                            (db_after (routes_auth.confirmed_email auth tok now db))
                   /\ User.confirmed r' = true
                   /\ r' = User.mk (User.id (User.row user)) (User.name (User.row user))
                                   (User.last_name (User.row user))
                                   (User.day_of_born (User.row user))
                                   (User.email (User.row user))
                                   (User.password (User.row user))
                                   (User.description (User.row user))
                                   (User.avatar (User.row user)) true)).
Proof.
  intros Hwf. split.
  - intros req. by apply (handle_good auth now req db).
  - intros tok email user Htok Hfind.
    destruct (User.confirmed (User.row user)) eqn:Hc.
    + by eapply confirmed_email_again.
    + destruct (confirmed_email_first auth tok now db email user Hwf Htok Hfind Hc)
        as (Hresp & Hafter & _).
      split_and!; [done | done |].
      eexists. split_and!; [exact Hafter | | reflexivity | reflexivity].
      apply find_user_by_email_Some in Hafter as (r' & Hr' & Hin & _).
      assert (User.row (User.load (User.set_confirmed true (User.row user)))
              = User.row (User.load r')) as E by (by rewrite Hr').
      cbn in E. by rewrite E.
Qed.

Lemma example_db0_wf : wf_db example.db0.
Proof.
  constructor; cbn.
  - apply (bool_decide_unpack _). vm_compute. exact I.
  - repeat constructor.
  - apply (bool_decide_unpack _). vm_compute. exact I.
  - apply (bool_decide_unpack _). vm_compute. exact I.
  - repeat constructor.
Defined.

Lemma confirmed_flag_only_rises_witness :
  let auth := example.auth_service in
  let bob_token :=
    services_auth.create_email_token auth {["sub" := CStr "bob@example.com"]} 1000 in
  let db1 := db_after (routes_auth.confirmed_email auth bob_token 2000 example.db0) in
  response (routes_auth.confirmed_email auth bob_token 2000 example.db0)
  = Return "Email confirmed"
  /\ repository_users.find_user_by_email "bob@example.com" db1
     = Some (User.load (User.set_confirmed true example.bob))
  /\ repository_users.find_user_by_email "bob@example.com" db1
     = Some (User.load (User.mk 2 "Bob" "Baker" (mkdate 1985 7 12) "bob@example.com"
                                "$builder" (Some "second user") None true))
  /\ (User.confirmed ∘ User.row <$>
        repository_users.find_user_by_email "bob@example.com" db1) = Some true
  /\ (forall r', r' ∈ users_info
                        (api.handle auth 2000
                           (api.UpdateUser example.alice_bearer 1 example.carol_body)
                           example.db0) ->
                 User.id r' = 1 -> User.confirmed r' = true).
Proof.
  cbn zeta.
  destruct (confirmed_flag_only_rises example.auth_service 2000 example.db0
              example_db0_wf) as [Hkeep Hconfirm].
  specialize (Hconfirm
    (services_auth.create_email_token example.auth_service
       {["sub" := CStr "bob@example.com"]} 1000)
    "bob@example.com" (User.load example.bob)).
  assert (Htok : services_auth.get_email_from_token example.auth_service
                   (services_auth.create_email_token example.auth_service
                      {["sub" := CStr "bob@example.com"]} 1000) 2000
                 = Return "bob@example.com") by (vm_compute; reflexivity).
  specialize (Hconfirm Htok eq_refl). cbn in Hconfirm.
  destruct Hconfirm as (Hresp & Hafter & rb & Hfound & _ & Hflag & Hrow).
  split_and!; [exact Hresp | exact Hafter | | |].
  { rewrite Hfound, Hrow. reflexivity. }
  { rewrite Hfound. cbn. by rewrite Hflag. }
  intros r' Hr' Hid.
  apply (Hkeep (api.UpdateUser example.alice_bearer 1 example.carol_body)
               example.alice r');
    [| exact Hr' | exact Hid | reflexivity].
  apply list_elem_of_here.
Defined.

(** ** C5 and C10: ownership of contacts *)

Lemma foreign_contact_query db (c : Contact.t) (owner caller : Z) :
  NoDup (map Contact.id (contacts db)) -> c ∈ contacts db ->
  Contact.user_id c = Some owner -> caller <> owner ->
  query_first (fun x => (Contact.id x =? Contact.id c) && user_id_is caller x)
              (contacts db) = None.
Proof.
  intros Hnd Hc Hown Hne.
  destruct (query_first _ _) as [x|] eqn:E; [| done].
  apply query_first_Some in E as [Hx Hp].
  apply andb_prop in Hp as [Hid Hu]. apply Z.eqb_eq in Hid.
  assert (x = c) as -> by (by apply (NoDup_map_elem_eq Contact.id (contacts db))).
  unfold user_id_is in Hu. rewrite Hown in Hu. apply Z.eqb_eq in Hu. congruence.
Qed.

(** C5.  A contact of user A is out of reach of any other caller B:
    [update_contact] and [remove_contact] return [None] and the database is
    the one they were given. *)
Theorem contact_of_another_user_is_not_found db (c : Contact.t) (owner : Z)
    (caller : User.obj) (body : ContactModel) :
  wf_db db -> c ∈ contacts db ->
  Contact.user_id c = Some owner -> User.id (User.row caller) <> owner ->
  repository_contacts.update_contact (Contact.id c) body db caller = (None, db)
  /\ repository_contacts.remove_contact (Contact.id c) db caller = (None, db).
Proof.
  intros Hwf Hc Hown Hne.
  unfold repository_contacts.update_contact, repository_contacts.remove_contact.
  rewrite (foreign_contact_query db c owner _ (wf_contact_ids db Hwf) Hc Hown Hne).
  done.
Qed.

Lemma contact_of_another_user_is_not_found_witness :
  repository_contacts.update_contact 1 (Build_ContactModel "000") example.db0
    (User.load example.bob) = (None, example.db0)
  /\ repository_contacts.remove_contact 1 example.db0 (User.load example.bob)
     = (None, example.db0).
Proof.
  apply (contact_of_another_user_is_not_found example.db0 example.alice_phone 1
           (User.load example.bob) (Build_ContactModel "000") example_db0_wf).
  - apply list_elem_of_here.
  - reflexivity.
  - cbn. lia.
Defined.

(** The owner, for comparison, does reach the contact. *)
Example owner_updates_contact :
  repository_contacts.update_contact 1 (Build_ContactModel "000") example.db0
    (User.load example.alice)
  = (Some (Contact.mk 1 "000" (Some 1)),
     mkDB [example.alice; example.bob]
          [Contact.mk 1 "000" (Some 1); example.spare_phone] 3 3).
Proof. reflexivity. Qed.

Lemma orphan_contact_query (l : list Contact.t) (c : Contact.t) (bound caller : Z) :
  Forall (fun x => Contact.id x < bound) l ->
  Contact.id c = bound -> Contact.user_id c = None ->
  query_first (fun x => (Contact.id x =? Contact.id c) && user_id_is caller x)
              (l ++ [c]) = None.
Proof.
  intros Hseq Hid Hnull.
  destruct (query_first _ _) as [x|] eqn:E; [| done].
  apply query_first_Some in E as [Hx Hp].
  apply andb_prop in Hp as [Hidx Hu]. apply Z.eqb_eq in Hidx.
  apply elem_of_app in Hx as [Hx|Hx].
  - rewrite Forall_forall in Hseq. specialize (Hseq x Hx). cbn in Hseq. lia.
  - apply list_elem_of_singleton in Hx. subst x.
    unfold user_id_is in Hu. by rewrite Hnull in Hu.
Qed.

(** C10.  [create_contact] stores the contact with a null [user_id]; on the
    database it returns, [update_contact] and [remove_contact] on the new
    contact return [None] for every caller and change nothing. *)
Theorem created_contact_has_no_owner body db :
  wf_db db ->
  let c := fst (repository_contacts.create_contact body db) in
  let db' := snd (repository_contacts.create_contact body db) in
  c ∈ contacts db'
  /\ Contact.phone_number c = cm_phone_number body
  /\ Contact.user_id c = None
  /\ forall (user : User.obj) (body' : ContactModel),
       repository_contacts.update_contact (Contact.id c) body' db' user = (None, db')
       /\ repository_contacts.remove_contact (Contact.id c) db' user = (None, db').
Proof.
  intros Hwf. cbn. split_and!; [| done | done |].
  - apply elem_of_app. right. apply list_elem_of_here.
  - intros user body'.
    unfold repository_contacts.update_contact, repository_contacts.remove_contact.
    cbn [contacts Contact.id].
    rewrite (orphan_contact_query (contacts db)
               (Contact.mk (contacts_id_seq db) (cm_phone_number body) None)
               (contacts_id_seq db) _ (wf_contact_seq db Hwf) eq_refl eq_refl).
    done.
Qed.

Lemma created_contact_has_no_owner_witness :
  let created := repository_contacts.create_contact (Build_ContactModel "0671234567")
                   example.db0 in
  fst created = Contact.mk 3 "0671234567" None
  /\ repository_contacts.update_contact 3 (Build_ContactModel "000") (snd created)
       (User.load example.alice) = (None, snd created)
  /\ repository_contacts.remove_contact 3 (snd created) (User.load example.alice)
     = (None, snd created).
Proof.
  cbn zeta.
  destruct (created_contact_has_no_owner (Build_ContactModel "0671234567") example.db0
              example_db0_wf) as (_ & _ & _ & H).
  destruct (H (User.load example.alice) (Build_ContactModel "000")) as [Hu Hr].
  split_and!; [reflexivity | exact Hu | exact Hr].
Defined.

(** ** C9: what [update_user] writes *)

(** The list of the body ends in the plain attribute [phones] of the
    returned instance. *)
Lemma update_user_phones user_id body db user o db' :
  repository_users.update_user user_id body db user = Return (Some o, db') ->
  User.dict o !! "phones"
  = Some (PContacts (query_all (id_in (um_contacts body)) (contacts db)))
  /\ User.name (User.row o) = um_name body
  /\ User.last_name (User.row o) = um_last_name body
  /\ User.day_of_born (User.row o) = um_day_of_born body
  /\ User.email (User.row o) = um_email body
  /\ User.description (User.row o) = Some (um_description body).
Proof.
  unfold repository_users.update_user.
  destruct (query_first _ _) as [f|]; [| discriminate].
  cbn. destruct (flush_user _ db) as [db1|e]; cbn; [| discriminate].
  intros [= <- _]. cbn. split_and!; try done.
Qed.

(** C9.  [update_user] leaves the table of contacts as it is, hence the
    contacts of every user, whatever list of contacts the body carries; in
    the table of users it touches only the row of [user_id], and there
    neither the id, the password, the avatar nor the confirmed flag. *)
Theorem update_user_leaves_contacts user_id body db user :
  let db' := committed (repository_users.update_user user_id body db user) db in
  contacts db' = contacts db
  /\ (forall uid, contacts_of uid db' = contacts_of uid db)
  /\ users_info_id_seq db' = users_info_id_seq db
  /\ contacts_id_seq db' = contacts_id_seq db
  /\ (wf_db db ->
      Forall2 (fun r r' =>
                 User.id r' = User.id r /\ User.password r' = User.password r
                 /\ User.avatar r' = User.avatar r
                 /\ User.confirmed r' = User.confirmed r
                 /\ (User.id r <> user_id -> r' = r))
              (users_info db) (users_info db')).
Proof.
  cbn zeta.
  assert (Hsame : Forall2 (fun r r' =>
                    User.id r' = User.id r /\ User.password r' = User.password r
                    /\ User.avatar r' = User.avatar r
                    /\ User.confirmed r' = User.confirmed r
                    /\ (User.id r <> user_id -> r' = r))
                    (users_info db) (users_info db)).
  { apply Forall_Forall2_diag, Forall_forall. intros x _. by split_and!. }
  unfold repository_users.update_user.
  destruct (query_first _ _) as [f|] eqn:E; cbn; [| by split_and!].
  unfold flush_user. destruct (existsb _ _); cbn; [by split_and! |].
  split_and!; try done.
  intros Hwf. apply query_first_Some in E as [Hf Hp].
  apply andb_prop in Hp as [Hid _]. apply Z.eqb_eq in Hid.
  pose proof (wf_user_ids db Hwf) as Hnd. clear Hsame Hwf.
  assert (Hall : forall x, x ∈ users_info db -> User.id x = User.id f -> x = f).
  { intros x Hx Hidx. by apply (NoDup_map_elem_eq User.id (users_info db)). }
  clear Hnd Hf. induction (users_info db) as [|x l IH]; cbn; constructor.
  - unfold replace_user. cbn.
    destruct (User.id x =? User.id f) eqn:Ex; [| by split_and!].
    apply Z.eqb_eq in Ex.
    rewrite (Hall x (list_elem_of_here _ _) Ex). cbn.
    split_and!; first [done | intros Hne; congruence].
  - apply IH. intros y Hy. apply Hall. by apply list_elem_of_further.
Qed.

Lemma update_user_leaves_contacts_witness :
  let body := Build_UserModel "Alicia" "Archer" (mkdate 1990 1 30) "alicia@example.com"
                "renamed" "ignored" [2] in
  let db' := committed (repository_users.update_user 1 body example.db0
                          (User.load example.alice)) example.db0 in
  contacts db' = [example.alice_phone; example.spare_phone]
  /\ contacts_of 1 db' = [example.alice_phone]
  /\ Forall2 (fun r r' => User.password r' = User.password r
                          /\ User.confirmed r' = User.confirmed r)
             (users_info example.db0) (users_info db')
  /\ users_info db'
     = [User.mk 1 "Alicia" "Archer" (mkdate 1990 1 30) "alicia@example.com"
                "$wonderland" (Some "renamed") None true; example.bob].
Proof.
  cbn zeta.
  destruct (update_user_leaves_contacts 1
              (Build_UserModel "Alicia" "Archer" (mkdate 1990 1 30)
                 "alicia@example.com" "renamed" "ignored" [2])
              example.db0 (User.load example.alice))
    as (Hc & Hof & _ & _ & Hu).
  split_and!.
  - rewrite Hc. reflexivity.
  - rewrite Hof. reflexivity.
  - eapply Forall2_impl; [exact (Hu example_db0_wf) |].
    cbn. intros r r' (_ & Hp & _ & Hcf & _). by split.
  - reflexivity.
Defined.

(** ** C6: issuing and decoding tokens *)

Lemma update_claims_exp data iat exp scope :
  services_auth.update_claims data iat exp scope !! "exp" = Some (CInt exp).
Proof.
  unfold services_auth.update_claims.
  rewrite lookup_insert_ne by done. apply lookup_insert_eq.
Qed.

Lemma update_claims_scope data iat exp scope :
  services_auth.update_claims data iat exp scope !! "scope" = Some (CStr scope).
Proof. unfold services_auth.update_claims. apply lookup_insert_eq. Qed.

(** The claims of the caller are embedded as they are. *)
Lemma update_claims_other data iat exp scope k :
  k <> "iat" -> k <> "exp" -> k <> "scope" ->
  services_auth.update_claims data iat exp scope !! k = data !! k.
Proof.
  intros H1 H2 H3. unfold services_auth.update_claims.
  by rewrite !lookup_insert_ne.
Qed.

Lemma update_claims_sub data iat exp scope :
  services_auth.update_claims data iat exp scope !! "sub" = data !! "sub".
Proof. by apply update_claims_other. Qed.

Lemma update_claims_iat data iat exp scope :
  services_auth.update_claims data iat exp scope !! "iat" = Some (CInt iat).
Proof.
  unfold services_auth.update_claims.
  rewrite !lookup_insert_ne by done. apply lookup_insert_eq.
Qed.

(** Decoding what the service has just signed, when the claims of the
    caller are plain: only the expiry is left to check. *)
Lemma decode_own_token key alg data iat exp scope now :
  plain_claims data ->
  (forall n, data !! "sub" <> Some (CInt n)) ->
  jwt.decode (jwt.encode (services_auth.update_claims data iat exp scope) key alg)
             key [alg] now
  = if exp <? now then jwt.Invalid jwt.ExpiredSignatureError
    else jwt.Payload (services_auth.update_claims data iat exp scope).
Proof.
  intros (Hnbf & Haud & Hat & Hjti) Hsub. unfold jwt.decode, jwt.encode. cbn [existsb].
  rewrite !String.eqb_refl. cbn [orb negb].
  unfold jwt.validate_claims, jwt.validate_iat, jwt.validate_nbf, jwt.validate_exp,
    jwt.validate_aud, jwt.validate_sub, jwt.validate_jti, jwt.validate_at_hash.
  rewrite update_claims_iat, update_claims_exp, !update_claims_other by done.
  rewrite Hnbf, Haud, Hat. cbn [jwt.int_of_claim jwt.first_error].
  destruct (exp <? now); [done |].
  destruct (data !! "sub") as [[s|n]|] eqn:E; [| by destruct (Hsub n) |];
    (destruct (data !! "jti") as [[s'|n']|] eqn:E'; [done | by destruct (Hjti n') | done]).
Qed.


(** A given lifetime, other than 0, that keeps the expiry within the range
    of [datetime]. *)
Lemma utcnow_plus_seconds_Return now d :
  services_auth.datetime_min <= now + d <= services_auth.datetime_max ->
  services_auth.utcnow_plus_seconds now d = Return (now + d).
Proof.
  intros [Hlo Hhi]. unfold services_auth.utcnow_plus_seconds.
  apply Z.ltb_ge in Hlo, Hhi. by rewrite Hlo, Hhi.
Qed.

Lemma create_access_token_given auth data ttl issued :
  ttl <> 0 ->
  services_auth.datetime_min <= issued + ttl <= services_auth.datetime_max ->
  services_auth.create_access_token auth data (Some ttl) issued
  = Return (jwt.encode (services_auth.update_claims data issued (issued + ttl)
                          "access_token")
              (services_auth.SECRET_KEY auth) (services_auth.ALGORITHM auth)).
Proof.
  intros Httl Hrange. unfold services_auth.create_access_token, services_auth.truthy.
  apply Z.eqb_neq in Httl. rewrite Httl. cbn [negb].
  by rewrite utcnow_plus_seconds_Return.
Qed.


(** A lifetime that takes the expiry past the last [datetime] issues no
    token: the sum raises. *)
Lemma lifetime_past_datetime_max auth data ttl issued :
  ttl <> 0 -> services_auth.datetime_max < issued + ttl ->
  services_auth.create_access_token auth data (Some ttl) issued = Raise OverflowError
  /\ services_auth.create_refresh_token auth data (Some ttl) issued = Raise OverflowError.
Proof.
  intros Httl Hhi.
  unfold services_auth.create_access_token, services_auth.create_refresh_token,
    services_auth.truthy, services_auth.utcnow_plus_seconds.
  apply Z.eqb_neq in Httl. rewrite Httl. cbn [negb].
  apply Z.ltb_lt in Hhi. rewrite Hhi, orb_true_r. done.
Qed.



(** A [sub] that is not a string is refused by the library, whatever the
    time; so are an audience and a time before [nbf]. *)
Example integer_sub_is_refused :
  services_auth.decode_refresh_token example.auth_service
    (jwt.encode (services_auth.update_claims {["sub" := CInt 7]} 1000 1060
                   "refresh_token") "secret" "HS256") 1001
  = Raise (HTTPException 401 "Could not validate credentials" []).
Proof. vm_compute. reflexivity. Qed.

Example registered_claims_are_checked :
  let sub : gmap string claim_value := {["sub" := CStr "alice@example.com"]} in
  let token_of data :=
    jwt.encode (services_auth.update_claims data 1000 1060 "access_token")
      "secret" "HS256" in
  jwt.decode (token_of (<["aud" := CStr "clients"]> sub)) "secret" ["HS256"] 1001
  = jwt.Invalid jwt.JWTClaimsError
  /\ jwt.decode (token_of (<["nbf" := CInt 1030]> sub)) "secret" ["HS256"] 1001
     = jwt.Invalid jwt.JWTClaimsError
  /\ jwt.decode (token_of (<["nbf" := CStr "1030"]> sub)) "secret" ["HS256"] 1001
     = jwt.Invalid jwt.JWTClaimsError
  /\ jwt.decode (token_of (<["nbf" := CStr " 1_000 "]> sub)) "secret" ["HS256"] 1001
     = jwt.Payload (services_auth.update_claims (<["nbf" := CStr " 1_000 "]> sub)
                      1000 1060 "access_token")
  /\ jwt.decode (token_of (<["nbf" := CStr "soon"]> sub)) "secret" ["HS256"] 1001
     = jwt.Invalid jwt.JWTClaimsError
  /\ jwt.decode (token_of (<["jti" := CInt 1]> sub)) "secret" ["HS256"] 1001
     = jwt.Invalid jwt.JWTClaimsError
  /\ jwt.decode (token_of (<["at_hash" := CStr "h"]> sub)) "secret" ["HS256"] 1001
     = jwt.Invalid jwt.JWTClaimsError
  /\ jwt.decode (token_of (<["jti" := CStr "id"]> sub)) "secret" ["HS256"] 1001
     = jwt.Payload (services_auth.update_claims (<["jti" := CStr "id"]> sub)
                      1000 1060 "access_token").
Proof. cbn zeta. split_and!; vm_compute; reflexivity. Qed.

(** The access token as the protected routes read it. *)
Lemma get_current_user_until_expiry auth data ttl issued now db email user :
  ttl <> 0 ->
  services_auth.datetime_min <= issued + ttl <= services_auth.datetime_max ->
  plain_claims data ->
  data !! "sub" = Some (CStr email) ->
  repository_users.find_user_by_email email db = Some user ->
  exists access,
    services_auth.create_access_token auth data (Some ttl) issued = Return access
    /\ (now <= issued + ttl ->
        services_auth.get_current_user auth access db now = Return user)
    /\ (issued + ttl < now ->
        services_auth.get_current_user auth access db now
        = Raise services_auth.credentials_exception).
Proof.
  intros Httl Hrange Hplain Hsub Hfind.
  eexists. split; [by apply create_access_token_given |].
  unfold services_auth.get_current_user.
  rewrite decode_own_token by (first [done | intros n; rewrite Hsub; discriminate]).
  split.
  - intros Hnow. apply Z.ltb_ge in Hnow. rewrite Hnow.
    rewrite update_claims_scope, bool_decide_eq_true_2 by done.
    unfold services_auth.get_sub. by rewrite update_claims_sub, Hsub, Hfind.
  - intros Hnow. apply Z.ltb_lt in Hnow. by rewrite Hnow.
Qed.

(** A lifetime of 0 counts as none given, and the default applies. *)
Lemma zero_lifetime_is_default auth data issued :
  services_auth.create_access_token auth data (Some 0) issued
  = services_auth.create_access_token auth data None issued
  /\ services_auth.create_refresh_token auth data (Some 0) issued
     = services_auth.create_refresh_token auth data None issued.
Proof. split; reflexivity. Qed.


(** ** C7: what a refused token is answered *)

(** C7 (as amended).  A token that the library refuses (bad signature,
    expired, malformed) and a token of another scope are answered
    - by [get_current_user] with one and the same 401 response;
    - by [decode_refresh_token] with status 401 in both cases, the detail
      being "Could not validate credentials" for the former and "Invalid
      scope for token" for the latter;
    - by [get_email_from_token] with 422 for the former and 401 for the
      latter. *)
Theorem refused_token_responses auth tok db now :
  (forall e,
     jwt.decode tok (services_auth.SECRET_KEY auth) [services_auth.ALGORITHM auth] now
     = jwt.Invalid e ->
     services_auth.get_current_user auth tok db now
     = Raise services_auth.credentials_exception
     /\ services_auth.decode_refresh_token auth tok now
        = Raise (HTTPException 401 "Could not validate credentials" [])
     /\ services_auth.get_email_from_token auth tok now
        = Raise (HTTPException 422 "Invalid token for email verification" []))
  /\ (forall payload scope,
        jwt.decode tok (services_auth.SECRET_KEY auth) [services_auth.ALGORITHM auth] now
        = jwt.Payload payload ->
        payload !! "scope" = Some scope ->
        (scope <> CStr "access_token" ->
         services_auth.get_current_user auth tok db now
         = Raise services_auth.credentials_exception)
        /\ (scope <> CStr "refresh_token" ->
            services_auth.decode_refresh_token auth tok now
            = Raise (HTTPException 401 "Invalid scope for token" []))
        /\ (scope <> CStr "email_token" ->
            services_auth.get_email_from_token auth tok now
            = Raise (HTTPException 401 "Invalid scope for token" []))).
Proof.
  split.
  - intros e He.
    unfold services_auth.get_current_user, services_auth.decode_refresh_token,
      services_auth.get_email_from_token.
    by rewrite He.
  - intros payload scope Hp Hs.
    unfold services_auth.get_current_user, services_auth.decode_refresh_token,
      services_auth.get_email_from_token.
    rewrite Hp, Hs. split_and!; intros Hne.
    + rewrite bool_decide_eq_false_2; [done |]. congruence.
    + by rewrite bool_decide_eq_false_2.
    + by rewrite bool_decide_eq_false_2.
Qed.

Lemma refused_token_responses_witness :
  let auth := example.auth_service in
  let data : gmap string claim_value := {["sub" := CStr "alice@example.com"]} in
  let access :=
    jwt.encode (services_auth.update_claims data 1000 1900 "access_token")
      "secret" "HS256" in
  let refresh :=
    jwt.encode (services_auth.update_claims data 1000 605800 "refresh_token")
      "secret" "HS256" in
  services_auth.create_access_token auth data None 1000 = Return access
  /\ services_auth.create_refresh_token auth data None 1000 = Return refresh
  /\ services_auth.get_email_from_token auth
       (services_auth.create_email_token auth data 1000) (1000 + services_auth.days 8)
     = Raise (HTTPException 422 "Invalid token for email verification" [])
  /\ services_auth.decode_refresh_token auth access 1001
     = Raise (HTTPException 401 "Invalid scope for token" [])
  /\ services_auth.get_current_user auth refresh example.db0 1001
     = Raise services_auth.credentials_exception.
Proof.
  cbn zeta. split_and!.
  - reflexivity.
  - reflexivity.
  - destruct (refused_token_responses example.auth_service
                (services_auth.create_email_token example.auth_service
                   {["sub" := CStr "alice@example.com"]} 1000)
                example.db0 (1000 + services_auth.days 8)) as [Hrefused _].
    destruct (Hrefused jwt.ExpiredSignatureError) as (_ & _ & He);
      [vm_compute; reflexivity | exact He].
  - destruct (refused_token_responses example.auth_service
                (jwt.encode
                   (services_auth.update_claims {["sub" := CStr "alice@example.com"]}
                      1000 1900 "access_token") "secret" "HS256")
                example.db0 1001) as [_ Hscope].
    destruct (Hscope
                (services_auth.update_claims {["sub" := CStr "alice@example.com"]}
                   1000 1900 "access_token")
                (CStr "access_token")) as (_ & Hr & _);
      [vm_compute; reflexivity | vm_compute; reflexivity |].
    apply Hr. discriminate.
  - destruct (refused_token_responses example.auth_service
                (jwt.encode
                   (services_auth.update_claims {["sub" := CStr "alice@example.com"]}
                      1000 605800 "refresh_token") "secret" "HS256")
                example.db0 1001) as [_ Hscope].
    destruct (Hscope
                (services_auth.update_claims {["sub" := CStr "alice@example.com"]}
                   1000 605800 "refresh_token")
                (CStr "refresh_token")) as (Hc & _ & _);
      [vm_compute; reflexivity | vm_compute; reflexivity |].
    apply Hc. discriminate.
Defined.

(** C7 (as stated) fails for the token of the confirmation mail: presented
    with an access token the check answers 401, with an expired or forged
    email token it answers 422. *)
Lemma email_token_failures_differ_in_status :
  let auth := example.auth_service in
  let data : gmap string claim_value := {["sub" := CStr "alice@example.com"]} in
  let expired := services_auth.create_email_token auth data 1000 in
  let forged :=
    jwt.encode (services_auth.update_claims data 1000 700000 "email_token")
               "guess" "HS256" in
  exists wrong_scope e_scope e_expired e_forged,
    services_auth.create_access_token auth data None 1000 = Return wrong_scope
    /\ services_auth.get_email_from_token auth wrong_scope 1001 = Raise e_scope
    /\ services_auth.get_email_from_token auth expired (1000 + services_auth.days 8)
       = Raise e_expired
    /\ services_auth.get_email_from_token auth forged 1001 = Raise e_forged
    /\ status_of e_scope = 401
    /\ status_of e_expired = 422
    /\ status_of e_forged = 422
    /\ status_of e_scope <> status_of e_expired.
Proof.
  cbn zeta.
  exists (jwt.encode
            (services_auth.update_claims {["sub" := CStr "alice@example.com"]}
               1000 1900 "access_token") "secret" "HS256"),
         (HTTPException 401 "Invalid scope for token" []),
         (HTTPException 422 "Invalid token for email verification" []),
         (HTTPException 422 "Invalid token for email verification" []).
  split_and!; try (vm_compute; reflexivity). vm_compute. discriminate.
Qed.

(** ** C8: asking for the confirmation mail again *)

(** C8 (as amended).  [request_email] never changes the database.  For an
    unknown address and for the address of an unconfirmed user it answers
    "Check your email for confirmation", scheduling a mail in the second
    case only; for the address of a confirmed user it answers "Your email is
    already confirmed". *)
Theorem request_email_answers email base_url db :
  db_after (routes_auth.request_email email base_url db) = db
  /\ (repository_users.find_user_by_email email db = None ->
      response (routes_auth.request_email email base_url db)
      = Return "Check your email for confirmation"
      /\ background_tasks (routes_auth.request_email email base_url db) = [])
  /\ (forall user,
        repository_users.find_user_by_email email db = Some user ->
        User.confirmed (User.row user) = false ->
        response (routes_auth.request_email email base_url db)
        = Return "Check your email for confirmation"
        /\ background_tasks (routes_auth.request_email email base_url db)
           = [mkmail email (User.name (User.row user)) base_url])
  /\ (forall user,
        repository_users.find_user_by_email email db = Some user ->
        User.confirmed (User.row user) = true ->
        response (routes_auth.request_email email base_url db)
        = Return "Your email is already confirmed"
        /\ background_tasks (routes_auth.request_email email base_url db) = []).
Proof.
  split_and!.
  - apply request_email_db_after.
  - intros Hnone. unfold routes_auth.request_email. by rewrite Hnone.
  - intros user Hfind Hc. unfold routes_auth.request_email. rewrite Hfind, Hc. cbn.
    apply find_user_by_email_Some in Hfind as (r & -> & _ & <-). done.
  - intros user Hfind Hc. unfold routes_auth.request_email. by rewrite Hfind, Hc.
Qed.

Lemma request_email_answers_witness :
  response (routes_auth.request_email "nobody@example.com" "http://host/" example.db0)
  = response (routes_auth.request_email "bob@example.com" "http://host/" example.db0)
  /\ background_tasks
       (routes_auth.request_email "bob@example.com" "http://host/" example.db0)
     = [mkmail "bob@example.com" "Bob" "http://host/"]
  /\ response (routes_auth.request_email "alice@example.com" "http://host/" example.db0)
     = Return "Your email is already confirmed".
Proof.
  destruct (request_email_answers "nobody@example.com" "http://host/" example.db0)
    as (_ & Hunknown & _ & _).
  destruct (request_email_answers "bob@example.com" "http://host/" example.db0)
    as (_ & _ & Hunconfirmed & _).
  destruct (request_email_answers "alice@example.com" "http://host/" example.db0)
    as (_ & _ & _ & Hconfirmed).
  destruct (Hunknown eq_refl) as [Hr1 _].
  destruct (Hunconfirmed (User.load example.bob) eq_refl eq_refl) as [Hr2 Ht2].
  destruct (Hconfirmed (User.load example.alice) eq_refl eq_refl) as [Hr3 _].
  split_and!; [by rewrite Hr1, Hr2 | exact Ht2 | exact Hr3].
Defined.

(** C8 (as stated) fails: neither address below belongs to an unconfirmed
    user, one is registered (and confirmed), the other is unknown, and the
    two answers differ. *)
Lemma request_email_tells_confirmed_from_unknown :
  repository_users.find_user_by_email "alice@example.com" example.db0
  = Some (User.load example.alice)
  /\ User.confirmed example.alice = true
  /\ repository_users.find_user_by_email "nobody@example.com" example.db0 = None
  /\ response (routes_auth.request_email "alice@example.com" "http://host/" example.db0)
     <> response (routes_auth.request_email "nobody@example.com" "http://host/"
                    example.db0).
Proof. split_and!; try reflexivity. vm_compute. discriminate. Qed.

(** * Further properties of the repository, the tokens and the routes *)

(** ** The schema invariant and the birthday query, on examples *)

Lemma reachable_wf_witness :
  wf_db (api.handle example.auth_service 20
           (api.Signup example.carol_body "salt" None "http://host/")
           (api.handle example.auth_service 10
              (api.CreateContact (Build_ContactModel "0671234567"))
              (api.empty_db))).
Proof.
  apply (reachable_wf example.auth_service).
  apply api.reachable_step, api.reachable_step, api.reachable_empty.
Defined.

Lemma find_next_7_days_birthdays_within_month_witness :
  exists l,
    repository_users.find_next_7_days_birthdays (mkdate 2024 7 5) example.db0 = Return l
    /\ User.load example.bob ∈ l.
Proof.
  destruct (find_next_7_days_birthdays_within_month (mkdate 2024 7 5) example.db0
              (mkdate 2024 7 6) (mkdate 2024 7 13) example.bob)
    as (l & Hl & Hiff).
  - unfold in_calendar. vm_compute. repeat split; discriminate.
  - vm_compute. reflexivity.
  - vm_compute. reflexivity.
  - reflexivity.
  - exists l. split; [exact Hl |]. apply Hiff. split.
    + apply list_elem_of_further, list_elem_of_here.
    + vm_compute. reflexivity.
Defined.

Lemma find_next_7_days_birthdays_across_months_witness :
  repository_users.find_next_7_days_birthdays (mkdate 2023 12 27) example.db0 = Return [].
Proof.
  apply (find_next_7_days_birthdays_across_months (mkdate 2023 12 27) example.db0
           (mkdate 2023 12 28) (mkdate 2024 1 4)).
  - unfold in_calendar. vm_compute. repeat split; discriminate.
  - vm_compute. reflexivity.
  - vm_compute. reflexivity.
  - vm_compute. discriminate.
Defined.

(** ** Tokens: scopes and lifetimes *)

(** The library hands back the claims that were signed, or fails. *)
Lemma decode_own_token_payload key alg claims now p :
  jwt.decode (jwt.encode claims key alg) key [alg] now = jwt.Payload p -> p = claims.
Proof.
  unfold jwt.decode, jwt.encode. cbn [existsb].
  rewrite !String.eqb_refl. cbn [orb negb].
  destruct (jwt.validate_claims claims now); congruence.
Qed.

Lemma get_current_user_other_scope auth data iat exp scope now db :
  scope <> "access_token" ->
  services_auth.get_current_user auth
    (jwt.encode (services_auth.update_claims data iat exp scope)
                (services_auth.SECRET_KEY auth) (services_auth.ALGORITHM auth)) db now
  = Raise services_auth.credentials_exception.
Proof.
  intros Hs. unfold services_auth.get_current_user.
  destruct (jwt.decode _ _ _ _) as [p|e] eqn:E; [| done].
  apply decode_own_token_payload in E. subst p.
  rewrite update_claims_scope, bool_decide_eq_false_2; [done |]. congruence.
Qed.

Lemma decode_refresh_token_other_scope auth data iat exp scope now :
  scope <> "refresh_token" ->
  exists detail,
    services_auth.decode_refresh_token auth
      (jwt.encode (services_auth.update_claims data iat exp scope)
                  (services_auth.SECRET_KEY auth) (services_auth.ALGORITHM auth)) now
    = Raise (HTTPException 401 detail []).
Proof.
  intros Hs. unfold services_auth.decode_refresh_token.
  destruct (jwt.decode _ _ _ _) as [p|e] eqn:E; [| by eexists].
  apply decode_own_token_payload in E. subst p.
  rewrite update_claims_scope, bool_decide_eq_false_2; [by eexists |]. congruence.
Qed.

Lemma get_email_from_token_other_scope auth data iat exp scope now :
  scope <> "email_token" ->
  exists status detail,
    services_auth.get_email_from_token auth
      (jwt.encode (services_auth.update_claims data iat exp scope)
                  (services_auth.SECRET_KEY auth) (services_auth.ALGORITHM auth)) now
    = Raise (HTTPException status detail [])
    /\ (status = 401 \/ status = 422).
Proof.
  intros Hs. unfold services_auth.get_email_from_token.
  destruct (jwt.decode _ _ _ _) as [p|e] eqn:E.
  - apply decode_own_token_payload in E. subst p.
    rewrite update_claims_scope, bool_decide_eq_false_2 by congruence.
    eexists _, _. split; [reflexivity | by left].
  - eexists _, _. split; [reflexivity | by right].
Qed.

Lemma create_access_token_shape auth data expires_delta issued tok :
  services_auth.create_access_token auth data expires_delta issued = Return tok ->
  exists exp,
    tok = jwt.encode (services_auth.update_claims data issued exp "access_token")
            (services_auth.SECRET_KEY auth) (services_auth.ALGORITHM auth).
Proof.
  unfold services_auth.create_access_token.
  destruct expires_delta as [d|]; [destruct (services_auth.truthy (Some d)) |];
    [destruct (services_auth.utcnow_plus_seconds issued d); [| discriminate] | |];
    intros [= <-]; by eexists.
Qed.

Lemma create_refresh_token_shape auth data expires_delta issued tok :
  services_auth.create_refresh_token auth data expires_delta issued = Return tok ->
  exists exp,
    tok = jwt.encode (services_auth.update_claims data issued exp "refresh_token")
            (services_auth.SECRET_KEY auth) (services_auth.ALGORITHM auth).
Proof.
  unfold services_auth.create_refresh_token.
  destruct expires_delta as [d|]; [destruct (services_auth.truthy (Some d)) |];
    [destruct (services_auth.utcnow_plus_seconds issued d); [| discriminate] | |];
    intros [= <-]; by eexists.
Qed.

(** A token is only good for the purpose it was issued for: whatever the
    claims, the lifetime and the time, the dependency of the protected
    routes refuses a refresh or an email token, the refresh route refuses an
    access or an email token, and the confirmation route refuses an access or
    a refresh token. *)
Theorem issued_token_is_refused_out_of_scope
    auth data expires_delta issued now db access refresh :
  services_auth.create_access_token auth data expires_delta issued = Return access ->
  services_auth.create_refresh_token auth data expires_delta issued = Return refresh ->
  let email := services_auth.create_email_token auth data issued in
  services_auth.get_current_user auth refresh db now
  = Raise services_auth.credentials_exception
  /\ services_auth.get_current_user auth email db now
     = Raise services_auth.credentials_exception
  /\ (exists detail, services_auth.decode_refresh_token auth access now
                     = Raise (HTTPException 401 detail []))
  /\ (exists detail, services_auth.decode_refresh_token auth email now
                     = Raise (HTTPException 401 detail []))
  /\ (exists status detail,
        services_auth.get_email_from_token auth access now
        = Raise (HTTPException status detail []) /\ (status = 401 \/ status = 422))
  /\ (exists status detail,
        services_auth.get_email_from_token auth refresh now
        = Raise (HTTPException status detail []) /\ (status = 401 \/ status = 422)).
Proof.
  intros Ha Hr. cbn zeta.
  destruct (create_access_token_shape auth data expires_delta issued access Ha)
    as [ea ->].
  destruct (create_refresh_token_shape auth data expires_delta issued refresh Hr)
    as [er ->].
  unfold services_auth.create_email_token.
  split_and!.
  - by apply get_current_user_other_scope.
  - by apply get_current_user_other_scope.
  - by apply decode_refresh_token_other_scope.
  - by apply decode_refresh_token_other_scope.
  - by apply get_email_from_token_other_scope.
  - by apply get_email_from_token_other_scope.
Qed.

Lemma issued_token_is_refused_out_of_scope_witness :
  let auth := example.auth_service in
  let data : gmap string claim_value := {["sub" := CStr "alice@example.com"]} in
  let access :=
    jwt.encode (services_auth.update_claims data 1000 1060 "access_token")
      "secret" "HS256" in
  let refresh :=
    jwt.encode (services_auth.update_claims data 1000 1060 "refresh_token")
      "secret" "HS256" in
  services_auth.create_access_token auth data (Some 60) 1000 = Return access
  /\ services_auth.create_refresh_token auth data (Some 60) 1000 = Return refresh
  /\ services_auth.get_current_user auth refresh example.db0 1001
     = Raise services_auth.credentials_exception
  /\ (exists detail, services_auth.decode_refresh_token auth access 1001
                     = Raise (HTTPException 401 detail []))
  /\ (exists status detail,
        services_auth.get_email_from_token auth access 1001
        = Raise (HTTPException status detail []) /\ (status = 401 \/ status = 422)).
Proof.
  cbn zeta.
  destruct (issued_token_is_refused_out_of_scope example.auth_service
              {["sub" := CStr "alice@example.com"]} (Some 60) 1000 1001 example.db0
              (jwt.encode
                 (services_auth.update_claims {["sub" := CStr "alice@example.com"]}
                    1000 1060 "access_token") "secret" "HS256")
              (jwt.encode
                 (services_auth.update_claims {["sub" := CStr "alice@example.com"]}
                    1000 1060 "refresh_token") "secret" "HS256")
              eq_refl eq_refl)
    as (Hcur & _ & Href & _ & Hmail & _).
  split_and!; [reflexivity | reflexivity | exact Hcur | exact Href | exact Hmail].
Defined.

Lemma singleton_sub_not_int (email : string) (n : Z) :
  ({["sub" := CStr email]} : gmap string claim_value) !! "sub" <> Some (CInt n).
Proof. rewrite lookup_singleton_eq. discriminate. Qed.

(** The claims the service signs, a [sub] and nothing else, are plain. *)
Lemma singleton_sub_plain (email : string) :
  plain_claims ({["sub" := CStr email]} : gmap string claim_value).
Proof.
  unfold plain_claims. rewrite !lookup_singleton_ne by done.
  split_and!; done.
Qed.

Lemma decode_sub_token key alg email iat exp scope now :
  jwt.decode
    (jwt.encode (services_auth.update_claims {["sub" := CStr email]} iat exp scope)
       key alg) key [alg] now
  = if exp <? now then jwt.Invalid jwt.ExpiredSignatureError
    else jwt.Payload (services_auth.update_claims {["sub" := CStr email]} iat exp scope).
Proof.
  apply decode_own_token; [apply singleton_sub_plain | apply singleton_sub_not_int].
Qed.

Lemma get_email_from_own_token auth email issued now :
  services_auth.get_email_from_token auth
    (services_auth.create_email_token auth {["sub" := CStr email]} issued) now
  = if issued + services_auth.days 7 <? now
    then Raise (HTTPException 422 "Invalid token for email verification" [])
    else Return email.
Proof.
  unfold services_auth.get_email_from_token, services_auth.create_email_token.
  rewrite decode_sub_token.
  destruct (issued + services_auth.days 7 <? now); [done |].
  rewrite update_claims_scope. cbn.
  unfold services_auth.subscript_sub, services_auth.get_sub.
  by rewrite update_claims_sub, lookup_singleton_eq.
Qed.

(** The token of a confirmation mail gives the address back for seven days
    (604800 seconds) from its issue, the last second included, and is
    answered 422 afterwards. *)
Theorem email_token_valid_for_seven_days auth email issued now :
  let tok := services_auth.create_email_token auth {["sub" := CStr email]} issued in
  (now <= issued + 604800 ->
   services_auth.get_email_from_token auth tok now = Return email)
  /\ (issued + 604800 < now ->
      services_auth.get_email_from_token auth tok now
      = Raise (HTTPException 422 "Invalid token for email verification" [])).
Proof.
  cbn zeta. rewrite get_email_from_own_token.
  change (services_auth.days 7) with 604800.
  split; intros Hnow.
  - apply Z.ltb_ge in Hnow. by rewrite Hnow.
  - apply Z.ltb_lt in Hnow. by rewrite Hnow.
Qed.

Lemma email_token_valid_for_seven_days_witness :
  services_auth.get_email_from_token example.auth_service
    (services_auth.create_email_token example.auth_service
       {["sub" := CStr "bob@example.com"]} 1000) 605800
  = Return "bob@example.com"
  /\ services_auth.get_email_from_token example.auth_service
       (services_auth.create_email_token example.auth_service
          {["sub" := CStr "bob@example.com"]} 1000) 605801
     = Raise (HTTPException 422 "Invalid token for email verification" []).
Proof.
  split.
  - apply (email_token_valid_for_seven_days example.auth_service "bob@example.com"
             1000 605800). lia.
  - apply (email_token_valid_for_seven_days example.auth_service "bob@example.com"
             1000 605801). lia.
Defined.

(** ** Login *)

Lemma login_success auth username password now db user :
  repository_users.find_user_by_email username db = Some user ->
  User.confirmed (User.row user) = true ->
  services_auth.verify_password auth password (User.password (User.row user))
  = Return true ->
  routes_auth.login auth username password now db
  = mkoutcome
      (Return (routes_auth.Build_TokenModel
                 (jwt.encode
                    (services_auth.update_claims {["sub" := CStr username]} now
                       (now + services_auth.minutes 15) "access_token")
                    (services_auth.SECRET_KEY auth) (services_auth.ALGORITHM auth))
                 (jwt.encode
                    (services_auth.update_claims {["sub" := CStr username]} now
                       (now + services_auth.days 7) "refresh_token")
                    (services_auth.SECRET_KEY auth) (services_auth.ALGORITHM auth))
                 "bearer"))
      db [].
Proof.
  intros Hfind Hc Hv. unfold routes_auth.login. rewrite Hfind, Hc, Hv. cbn.
  apply find_user_by_email_Some in Hfind as (r & -> & _ & <-). done.
Qed.



(** The tokens of a login.  For 15 minutes (900 seconds) the access token
    authenticates whoever is registered under the address at that moment,
    in whatever database; once the address is gone, or after the 15
    minutes, it is answered 401.  The refresh token decodes to the address
    for 7 days. *)
Theorem login_tokens_authenticate auth username password issued db user :
  repository_users.find_user_by_email username db = Some user ->
  User.confirmed (User.row user) = true ->
  services_auth.verify_password auth password (User.password (User.row user))
  = Return true ->
  exists tokens,
    response (routes_auth.login auth username password issued db) = Return tokens
    /\ routes_auth.token_type tokens = "bearer"
    /\ (forall now db',
          now <= issued + 900 ->
          services_auth.get_current_user auth (routes_auth.access_token tokens) db' now
          = match repository_users.find_user_by_email username db' with
            | Some holder => Return holder
            | None => Raise services_auth.credentials_exception
            end)
    /\ (forall now db',
          issued + 900 < now ->
          services_auth.get_current_user auth (routes_auth.access_token tokens) db' now
          = Raise services_auth.credentials_exception)
    /\ (forall now,
          now <= issued + 604800 ->
          services_auth.decode_refresh_token auth (routes_auth.refresh_token_ tokens) now
          = Return username)
    /\ (forall now,
          issued + 604800 < now ->
          services_auth.decode_refresh_token auth (routes_auth.refresh_token_ tokens) now
          = Raise (HTTPException 401 "Could not validate credentials" [])).
Proof.
  intros Hfind Hc Hv. rewrite (login_success _ _ _ _ _ _ Hfind Hc Hv). cbn.
  eexists. split; [reflexivity |]. cbn.
  unfold services_auth.get_current_user, services_auth.decode_refresh_token.
  change (services_auth.minutes 15) with 900.
  change (services_auth.days 7) with 604800.
  split_and!; [done | | | |].
  - intros now db' Hnow. rewrite decode_sub_token.
    apply Z.ltb_ge in Hnow. rewrite Hnow.
    rewrite update_claims_scope, bool_decide_eq_true_2 by done.
    unfold services_auth.get_sub. by rewrite update_claims_sub, lookup_singleton_eq.
  - intros now db' Hnow. rewrite decode_sub_token.
    apply Z.ltb_lt in Hnow. by rewrite Hnow.
  - intros now Hnow. rewrite decode_sub_token.
    apply Z.ltb_ge in Hnow. rewrite Hnow.
    rewrite update_claims_scope. cbn.
    unfold services_auth.subscript_sub, services_auth.get_sub.
    by rewrite update_claims_sub, lookup_singleton_eq.
  - intros now Hnow. rewrite decode_sub_token.
    apply Z.ltb_lt in Hnow. by rewrite Hnow.
Qed.

Lemma login_tokens_authenticate_witness :
  exists tokens,
    response (routes_auth.login example.auth_service "alice@example.com" "wonderland"
                1000 example.db0) = Return tokens
    /\ services_auth.get_current_user example.auth_service
         (routes_auth.access_token tokens) example.db0 1900
       = Return (User.load example.alice)
    /\ services_auth.get_current_user example.auth_service
         (routes_auth.access_token tokens) api.empty_db 1900
       = Raise services_auth.credentials_exception
    /\ services_auth.get_current_user example.auth_service
         (routes_auth.access_token tokens) example.db0 1901
       = Raise services_auth.credentials_exception.
Proof.
  destruct (login_tokens_authenticate example.auth_service "alice@example.com"
              "wonderland" 1000 example.db0 (User.load example.alice)
              eq_refl eq_refl eq_refl)
    as (tokens & Hr & _ & Hin & Hout & _).
  exists tokens. split_and!.
  - exact Hr.
  - rewrite (Hin 1900 example.db0) by lia. reflexivity.
  - rewrite (Hin 1900 api.empty_db) by lia. reflexivity.
  - apply (Hout 1901 example.db0). lia.
Defined.

(** ** From signup to the first login *)







(** ** Lookups *)

(** A query whose filter singles out one row returns that row. *)
Lemma query_first_the {T} (p : T -> bool) (table : list T) (r : T) :
  r ∈ table -> p r = true ->
  (forall x, x ∈ table -> p x = true -> x = r) ->
  query_first p table = Some r.
Proof.
  intros Hr Hp Huniq.
  destruct (query_first p table) as [x|] eqn:E.
  - apply query_first_Some in E as [Hx Hpx]. f_equal. by apply Huniq.
  - rewrite (query_first_None p table E r Hr) in Hp. discriminate.
Qed.

Lemma query_first_none {T} (p : T -> bool) (table : list T) :
  (forall x, x ∈ table -> p x = false) -> query_first p table = None.
Proof.
  intros Hnone. destruct (query_first p table) as [x|] eqn:E; [| done].
  apply query_first_Some in E as [Hx Hpx]. rewrite (Hnone x Hx) in Hpx. discriminate.
Qed.

Lemma get_user_unique db r :
  NoDup (map User.id (users_info db)) -> r ∈ users_info db ->
  repository_users.get_user (User.id r) db = Some (User.load r).
Proof.
  intros Hnd Hr. unfold repository_users.get_user.
  rewrite (query_first_the _ _ r); [done | done | apply Z.eqb_refl |].
  intros x Hx Hp. apply Z.eqb_eq in Hp.
  by apply (NoDup_map_elem_eq User.id (users_info db)).
Qed.

Lemma get_contact_unique db c :
  NoDup (map Contact.id (contacts db)) -> c ∈ contacts db ->
  repository_contacts.get_contact (Contact.id c) db = Some c.
Proof.
  intros Hnd Hc. unfold repository_contacts.get_contact.
  apply query_first_the; [done | apply Z.eqb_refl |].
  intros x Hx Hp. apply Z.eqb_eq in Hp.
  by apply (NoDup_map_elem_eq Contact.id (contacts db)).
Qed.




(** ** Users: who may change what *)

Lemma own_id_query_none (user_id caller_id : Z) (table : list User.t) :
  caller_id <> user_id ->
  query_first (fun u => (User.id u =? user_id) && (User.id u =? caller_id)) table = None.
Proof.
  intros Hne. apply query_first_none. intros x _.
  apply andb_false_iff.
  destruct (User.id x =? user_id) eqn:E; [right | by left].
  apply Z.eqb_eq in E. apply Z.eqb_neq. lia.
Qed.

Lemma own_id_query_some db r (caller_id : Z) :
  NoDup (map User.id (users_info db)) -> r ∈ users_info db -> caller_id = User.id r ->
  query_first (fun u => (User.id u =? User.id r) && (User.id u =? caller_id))
              (users_info db) = Some r.
Proof.
  intros Hnd Hr ->. apply query_first_the; [done | by rewrite Z.eqb_refl |].
  intros x Hx Hp. apply andb_prop in Hp as [Hp _]. apply Z.eqb_eq in Hp.
  by apply (NoDup_map_elem_eq User.id (users_info db)).
Qed.

(** A user can be updated or removed by nobody but that user: for a caller
    with another id the repository returns [None] and the routes answer 404
    "User not found", whether or not the id exists, and nothing changes. *)
Theorem another_user_is_not_found auth user_id body db caller bearer now :
  User.id (User.row caller) <> user_id ->
  repository_users.update_user user_id body db caller = Return (None, db)
  /\ repository_users.remove_user user_id db caller = (None, db)
  /\ (services_auth.get_current_user auth bearer db now = Return caller ->
      routes_users.update_user auth bearer body user_id now db
      = mkoutcome (Raise (HTTPException 404 "User not found" [])) db []
      /\ routes_users.remove_user auth bearer user_id now db
         = mkoutcome (Raise (HTTPException 404 "User not found" [])) db []).
Proof.
  intros Hne.
  assert (Hu : repository_users.update_user user_id body db caller = Return (None, db)).
  { unfold repository_users.update_user. by rewrite own_id_query_none. }
  assert (Hr : repository_users.remove_user user_id db caller = (None, db)).
  { unfold repository_users.remove_user. by rewrite own_id_query_none. }
  split_and!; [exact Hu | exact Hr |].
  intros Hcur. unfold routes_users.update_user, routes_users.remove_user.
  by rewrite Hcur, Hu, Hr.
Qed.

Lemma another_user_is_not_found_witness :
  routes_users.update_user example.auth_service example.alice_bearer example.carol_body
    2 2000 example.db0
  = mkoutcome (Raise (HTTPException 404 "User not found" [])) example.db0 []
  /\ routes_users.remove_user example.auth_service example.alice_bearer 2 2000 example.db0
     = mkoutcome (Raise (HTTPException 404 "User not found" [])) example.db0 []
  /\ repository_users.get_user 2 example.db0 = Some (User.load example.bob).
Proof.
  destruct (another_user_is_not_found example.auth_service 2 example.carol_body
              example.db0 (User.load example.alice) example.alice_bearer 2000)
    as (_ & _ & Hroutes).
  - cbn. lia.
  - destruct Hroutes as [Hu Hr]; [vm_compute; reflexivity |].
    split_and!; [exact Hu | exact Hr | reflexivity].
Defined.

(** Reading is not scoped: any caller whose token authenticates gets the
    record of any stored user by its id, and 404 for an id that is not
    stored; without a valid token the answer is the 401 of the
    dependency. *)
Theorem get_user_route_reads_any_user auth bearer user_id now db :
  wf_db db ->
  match services_auth.get_current_user auth bearer db now with
  | Raise e =>
      routes_users.get_user auth bearer user_id now db = mkoutcome (Raise e) db []
      /\ e = services_auth.credentials_exception
  | Return caller =>
      (forall r, r ∈ users_info db -> User.id r = user_id ->
                 routes_users.get_user auth bearer user_id now db
                 = mkoutcome (Return (User.load r)) db [])
      /\ (user_id ∉ map User.id (users_info db) ->
          routes_users.get_user auth bearer user_id now db
          = mkoutcome (Raise (HTTPException 404 "User not found" [])) db [])
  end.
Proof.
  intros Hwf. unfold routes_users.get_user.
  destruct (services_auth.get_current_user auth bearer db now) as [caller|e] eqn:E.
  - split.
    + intros r Hr <-. by rewrite (get_user_unique db r (wf_user_ids db Hwf) Hr).
    + intros Hk. unfold repository_users.get_user.
      rewrite query_first_none; [done |]. intros x Hx. apply Z.eqb_neq.
      intros <-. apply Hk. by apply elem_of_map_1.
  - split; [done |]. revert E. unfold services_auth.get_current_user.
    destruct (jwt.decode _ _ _ _) as [p|]; [| congruence].
    destruct (bool_decide _); [| congruence].
    destruct (services_auth.get_sub p) as [email|]; [| congruence].
    destruct (repository_users.find_user_by_email email db); congruence.
Qed.

Lemma get_user_route_reads_any_user_witness :
  routes_users.get_user example.auth_service example.alice_bearer 2 2000 example.db0
  = mkoutcome (Return (User.load example.bob)) example.db0 []
  /\ routes_users.get_user example.auth_service example.alice_bearer 2 9999 example.db0
     = mkoutcome (Raise services_auth.credentials_exception) example.db0 [].
Proof.
  split.
  - pose proof (get_user_route_reads_any_user example.auth_service
                  example.alice_bearer 2 2000 example.db0 example_db0_wf) as H.
    assert (E : services_auth.get_current_user example.auth_service
                  example.alice_bearer example.db0 2000
                = Return (User.load example.alice)) by (vm_compute; reflexivity).
    rewrite E in H. destruct H as [H _].
    apply (H example.bob); [apply list_elem_of_further, list_elem_of_here | reflexivity].
  - pose proof (get_user_route_reads_any_user example.auth_service
                  example.alice_bearer 2 9999 example.db0 example_db0_wf) as H.
    assert (E : services_auth.get_current_user example.auth_service
                  example.alice_bearer example.db0 9999
                = Raise services_auth.credentials_exception) by (vm_compute; reflexivity).
    rewrite E in H. destruct H as [H _]. exact H.
Defined.

Lemma detached_contacts_of uid (l : list Contact.t) :
  query_all (user_id_is uid)
            (map (fun c => if user_id_is uid c then Contact.set_user_id None c else c) l)
  = [].
Proof.
  unfold query_all. induction l as [|c l IH]; cbn; [done |].
  destruct (user_id_is uid c) eqn:E; cbn; [exact IH |]. by rewrite E.
Qed.

(** A user who removes their own account is gone: the call returns the
    user, afterwards neither the id nor the address finds anybody, no
    contact is attributed to the id, and every other user is still stored
    as before. *)
Theorem remove_user_removes_the_account db caller r :
  wf_db db -> r ∈ users_info db -> User.id (User.row caller) = User.id r ->
  let res := repository_users.remove_user (User.id r) db caller in
  fst res = Some (User.load r)
  /\ repository_users.get_user (User.id r) (snd res) = None
  /\ repository_users.find_user_by_email (User.email r) (snd res) = None
  /\ contacts_of (User.id r) (snd res) = []
  /\ (forall x, x ∈ users_info db -> User.id x <> User.id r ->
                repository_users.get_user (User.id x) (snd res) = Some (User.load x)).
Proof.
  intros Hwf Hr Hid. cbn zeta. unfold repository_users.remove_user.
  rewrite (own_id_query_some db r _ (wf_user_ids db Hwf) Hr Hid). cbn [fst snd].
  pose proof (delete_user_wf r db Hwf) as Hwf'.
  split_and!.
  - done.
  - unfold repository_users.get_user. rewrite query_first_none; [done |].
    intros x Hx. cbn in Hx. apply elem_of_filter_inv in Hx as [_ Hx].
    by apply negb_true_iff in Hx.
  - unfold repository_users.find_user_by_email. rewrite query_first_none; [done |].
    intros x Hx. cbn in Hx. apply elem_of_filter_inv in Hx as [Hx Hne].
    apply String.eqb_neq. intros He.
    apply negb_true_iff, Z.eqb_neq in Hne. apply Hne. f_equal.
    by apply (NoDup_map_elem_eq User.email (users_info db)); [apply Hwf | ..].
  - unfold contacts_of. cbn. apply detached_contacts_of.
  - intros x Hx Hne. apply get_user_unique; [apply Hwf' |].
    cbn. apply list_elem_of_In, filter_In. split; [by apply list_elem_of_In |].
    by apply negb_true_iff, Z.eqb_neq.
Qed.

Lemma remove_user_removes_the_account_witness :
  let res := repository_users.remove_user 1 example.db0 (User.load example.alice) in
  fst res = Some (User.load example.alice)
  /\ repository_users.find_user_by_email "alice@example.com" (snd res) = None
  /\ contacts_of 1 (snd res) = []
  /\ repository_users.get_user 2 (snd res) = Some (User.load example.bob).
Proof.
  cbn zeta.
  destruct (remove_user_removes_the_account example.db0 (User.load example.alice)
              example.alice example_db0_wf) as (H1 & _ & H3 & H4 & H5).
  - apply list_elem_of_here.
  - reflexivity.
  - split_and!; [exact H1 | exact H3 | exact H4 |].
    apply (H5 example.bob); [apply list_elem_of_further, list_elem_of_here |].
    cbn. lia.
Defined.






(** ** Contacts: creation, the owner's operations, adoption at signup *)

Lemma own_contact_query db c (caller_id : Z) :
  NoDup (map Contact.id (contacts db)) -> c ∈ contacts db ->
  Contact.user_id c = Some caller_id ->
  query_first (fun x => (Contact.id x =? Contact.id c) && user_id_is caller_id x)
              (contacts db) = Some c.
Proof.
  intros Hnd Hc Hown. apply query_first_the; [done | |].
  - unfold user_id_is. by rewrite Hown, !Z.eqb_refl.
  - intros x Hx Hp. apply andb_prop in Hp as [Hp _]. apply Z.eqb_eq in Hp.
    by apply (NoDup_map_elem_eq Contact.id (contacts db)).
Qed.



(** The owner's removal deletes the contact: it is returned, it is not
    found afterwards, and every other contact and every user is as
    before. *)
Theorem owner_removes_own_contact db c caller :
  wf_db db -> c ∈ contacts db ->
  Contact.user_id c = Some (User.id (User.row caller)) ->
  let res := repository_contacts.remove_contact (Contact.id c) db caller in
  fst res = Some c
  /\ repository_contacts.get_contact (Contact.id c) (snd res) = None
  /\ users_info (snd res) = users_info db
  /\ (forall x, x ∈ contacts db -> Contact.id x <> Contact.id c ->
                repository_contacts.get_contact (Contact.id x) (snd res) = Some x).
Proof.
  intros Hwf Hc Hown. cbn zeta. unfold repository_contacts.remove_contact.
  rewrite (own_contact_query db c _ (wf_contact_ids db Hwf) Hc Hown). cbn [fst snd].
  pose proof (delete_contact_wf c db Hwf) as Hwf'.
  split_and!; [done | | done |].
  - unfold repository_contacts.get_contact. apply query_first_none.
    intros x Hx. cbn in Hx. apply elem_of_filter_inv in Hx as [_ Hx].
    by apply negb_true_iff in Hx.
  - intros x Hx Hne. apply get_contact_unique; [apply Hwf' |].
    cbn. apply list_elem_of_In, filter_In. split; [by apply list_elem_of_In |].
    by apply negb_true_iff, Z.eqb_neq.
Qed.

Lemma owner_removes_own_contact_witness :
  let res := repository_contacts.remove_contact 1 example.db0
               (User.load example.alice) in
  fst res = Some example.alice_phone
  /\ repository_contacts.get_contact 1 (snd res) = None
  /\ repository_contacts.get_contact 2 (snd res) = Some example.spare_phone.
Proof.
  cbn zeta.
  destruct (owner_removes_own_contact example.db0 example.alice_phone
              (User.load example.alice) example_db0_wf
              (list_elem_of_here _ _) eq_refl) as (Hres & Hget & _ & Hother).
  split_and!; [exact Hres | exact Hget |].
  apply (Hother example.spare_phone);
    [apply list_elem_of_further, list_elem_of_here | cbn; lia].
Defined.






(** ** The refresh route *)

(** The refresh route never issues tokens: every request ends in an
    exception, the database is the one it was given and no mail is
    scheduled. *)
Theorem refresh_token_never_issues auth tok now db :
  (exists e, response (routes_auth.refresh_token auth tok now db) = Raise e)
  /\ db_after (routes_auth.refresh_token auth tok now db) = db
  /\ background_tasks (routes_auth.refresh_token auth tok now db) = [].
Proof.
  split_and!; [| apply refresh_token_db_after |].
  - unfold routes_auth.refresh_token.
    destruct (services_auth.decode_refresh_token auth tok now) as [email|e];
      [| by eexists].
    destruct (repository_users.find_user_by_email email db) as [user|] eqn:E;
      [| by eexists].
    apply find_user_by_email_Some in E as (r & -> & _).
    rewrite getattr_load. by eexists.
  - unfold routes_auth.refresh_token.
    destruct (services_auth.decode_refresh_token auth tok now) as [email|e]; [| done].
    destruct (repository_users.find_user_by_email email db) as [user|]; [| done].
    destruct (User.getattr user "refresh_token") as [stored|]; [| done].
    by destruct (negb (bool_decide (stored = PToken tok))).
Qed.

(** ** Confirmation for an address that nobody holds *)

(** A confirmation token outlives its account: when nobody holds the
    address any more (the user was removed, or changed address), a token
    that is still valid is answered 400 "Verification error" and nothing
    changes. *)
Theorem confirmed_email_unknown_address auth email issued now db :
  now <= issued + 604800 ->
  email ∉ map User.email (users_info db) ->
  routes_auth.confirmed_email auth
    (services_auth.create_email_token auth {["sub" := CStr email]} issued) now db
  = mkoutcome (Raise (HTTPException 400 "Verification error" [])) db [].
Proof.
  intros Hnow Hnone. unfold routes_auth.confirmed_email.
  rewrite get_email_from_own_token. change (services_auth.days 7) with 604800.
  apply Z.ltb_ge in Hnow. rewrite Hnow.
  unfold repository_users.find_user_by_email.
  rewrite query_first_none; [done |]. intros x Hx. apply String.eqb_neq.
  intros <-. apply Hnone. by apply elem_of_map_1.
Qed.

Lemma confirmed_email_unknown_address_witness :
  let gone := snd (repository_users.remove_user 2 example.db0 (User.load example.bob)) in
  routes_auth.confirmed_email example.auth_service
    (services_auth.create_email_token example.auth_service
       {["sub" := CStr "bob@example.com"]} 1000) 2000 gone
  = mkoutcome (Raise (HTTPException 400 "Verification error" [])) gone [].
Proof.
  cbn zeta.
  apply (confirmed_email_unknown_address example.auth_service "bob@example.com"
           1000 2000).
  - lia.
  - apply (bool_decide_unpack _). vm_compute. exact I.
Defined.

